(** * PageVisitTimeManager: page-visit duration tracking

    A shallow embedding of
    [extensions/applicationinsights-analytics-js/src/JavaScriptSDK/Telemetry/PageVisitTimeManager.ts]
    and the properties its specification states about it.

    The manager is written against capabilities it imports: the session
    storage helpers ([utlCanUseSessionStorage], [utlGetSessionStorage],
    [utlSetSessionStorage], [utlRemoveSessionStorage]), the JSON facility
    ([hasJSON], [getJSON]), the clock ([dateNow]), the diagnostic logger
    ([warnToConsole], [dumpObj]) and the injected reporting handler.  They
    are parameters of the embedding (record [Env]); each of them, [dumpObj]
    included, may act on the outside world and may raise.  The four methods are embedded in a
    small state / exception / trace monad and read line by line like the
    TypeScript.

    Two layers of statements follow.  Against arbitrary capabilities
    ([Env W] for any world [W]): what is reported, what is swallowed, what
    [restart] is made of, what happens without storage.  On an in-memory
    session ([World], [sessionEnv]), where the storage is a finite map and
    the slot can be looked at: the start / stop protocol and the invariant
    of the slot. *)

From Stdlib Require Import ZArith Ascii String DecimalString DecimalPos DecimalZ List Lia.
From stdpp Require Import gmap strings.
Import ListNotations.

Local Open Scope string_scope.
Local Open Scope Z_scope.

(** ** JavaScript values *)

Module Js.

(** The values the manager handles.  Timestamps are integer
    milliseconds ([dateNow]), hence [JNum] carries a [Z]; [JNaN] is the
    result of arithmetic on [undefined].  An object is the ordered list
    of its own properties. *)
#[warnings="-register-all"] Inductive JsVal : Type :=
| JUndefined
| JNull
| JBool (b : bool)
| JNum (n : Z)
| JNaN
| JStr (s : string)
| JObj (props : list (string * JsVal)).

(** What a [throw] carries: [ErrorObj m] is [new Error(m)], [TypeErrorObj]
    and [RangeErrorObj] the TypeError and the RangeError raised by the
    language itself (their messages are engine specific), [Foreign v]
    anything a capability throws. *)
Inductive Exn : Type :=
| ErrorObj (message : string)
| TypeErrorObj
| RangeErrorObj
| Foreign (v : JsVal).

(** Completion of an evaluation: a value or a raised exception. *)
Inductive Res (A : Type) : Type :=
| Ok (a : A)
| Throw (e : Exn).
Arguments Ok {A} a.
Arguments Throw {A} e.

Definition string_truthy (s : string) : bool :=
  match s with EmptyString => false | String _ _ => true end.

(** ToBoolean. *)
Definition truthy (v : JsVal) : bool :=
  match v with
  | JUndefined | JNull | JNaN => false
  | JBool b => b
  | JNum n => negb (n =? 0)
  | JStr s => string_truthy s
  | JObj _ => true
  end.

Fixpoint lookup_prop (props : list (string * JsVal)) (k : string) : JsVal :=
  match props with
  | [] => JUndefined
  | (k', v) :: rest => if String.eqb k' k then v else lookup_prop rest k
  end.

(** [o[k] = v] on the own properties: an existing key keeps its place,
    a new key goes last. *)
Fixpoint assign_prop (props : list (string * JsVal)) (k : string) (v : JsVal)
  : list (string * JsVal) :=
  match props with
  | [] => [(k, v)]
  | (k', v') :: rest =>
      if String.eqb k' k then (k', v) :: rest
      else (k', v') :: assign_prop rest k v
  end.

(** [v.k]: a TypeError on [null] and [undefined]; a primitive has no
    such property; an object answers from its own properties. *)
Definition get_prop (v : JsVal) (k : string) : Res JsVal :=
  match v with
  | JUndefined | JNull => Throw TypeErrorObj
  | JObj props => Ok (lookup_prop props k)
  | _ => Ok JUndefined
  end.

(** [v.k = x] in strict-mode code (module code is strict): a TypeError
    on anything that is not an object. *)
Definition set_prop (v : JsVal) (k : string) (x : JsVal) : Res JsVal :=
  match v with
  | JObj props => Ok (JObj (assign_prop props k x))
  | _ => Throw TypeErrorObj
  end.

(** [a - b] with [a] a number.  ToNumber on primitives is written out;
    on strings and objects it is the runtime's ([toNumber], a
    parameter: string parsing and ToPrimitive, which can raise). *)
Definition minus (toNumber : JsVal -> Res JsVal) (a : Z) (b : JsVal) : Res JsVal :=
  let sub (r : JsVal) : JsVal :=
    match r with JNum n => JNum (a - n) | _ => JNaN end in
  match b with
  | JNum n => Ok (JNum (a - n))
  | JNaN | JUndefined => Ok JNaN
  | JNull => Ok (JNum a)
  | JBool t => Ok (JNum (a - (if t then 1 else 0)))
  | JStr _ | JObj _ =>
      match toNumber b with
      | Ok r => Ok (sub r)
      | Throw e => Throw e
      end
  end.

End Js.
Import Js.

(** ** The monad of the embedding

    A computation runs in a world [W] (storage, clock, ...), ends in a
    value or a raised exception, and leaves the trace of what it handed to
    the two output capabilities: the warnings given to the logger and the
    calls of the reporting handler. *)

Inductive Event : Type :=
| Warned (message : string)
| Reported (pageName pageUrl pageVisitTime : JsVal).

Definition M (W A : Type) : Type := W -> Res A * W * list Event.

Section Monad.
Context {W : Type}.

Definition ret {A} (a : A) : M W A := fun w => (Ok a, w, []).

Definition throw {A} (e : Exn) : M W A := fun w => (Throw e, w, []).

Definition bind {A B} (m : M W A) (k : A -> M W B) : M W B :=
  fun w =>
    match m w with
    | (Ok a, w1, t1) =>
        match k a w1 with
        | (r, w2, t2) => (r, w2, (t1 ++ t2)%list)
        end
    | (Throw e, w1, t1) => (Throw e, w1, t1)
    end.

(** [try { body } catch (e) { handler e }]: what [body] did to the
    world before it raised stays done. *)
Definition try_catch {A} (body : M W A) (handler : Exn -> M W A) : M W A :=
  fun w =>
    match body w with
    | (Ok a, w1, t1) => (Ok a, w1, t1)
    | (Throw e, w1, t1) =>
        match handler e w1 with
        | (r, w2, t2) => (r, w2, (t1 ++ t2)%list)
        end
    end.

(** Run a capability. *)
Definition call {A} (c : W -> Res A * W) : M W A :=
  fun w => match c w with (r, w1) => (r, w1, []) end.

(** Run a capability and record the event. *)
Definition call_traced {A} (ev : Event) (c : W -> Res A * W) : M W A :=
  fun w => match c w with (r, w1) => (r, w1, [ev]) end.

(** A pure evaluation that may raise. *)
Definition lift {A} (r : Res A) : M W A := fun w => (r, w, []).

(** The three components of what a computation leaves. *)
Definition resultOf {A} (out : Res A * W * list Event) : Res A := fst (fst out).
Definition worldOf {A} (out : Res A * W * list Event) : W := snd (fst out).
Definition traceOf {A} (out : Res A * W * list Event) : list Event := snd out.

End Monad.

Notation "x <- m ;; k" := (bind m (fun x => k))
  (at level 100, m at next level, right associativity).
Notation "m ;;; k" := (bind m (fun _ => k))
  (at level 100, right associativity).

(** ** Capabilities *)

(** The object [getJSON()] returns. *)
Record JSON (W : Type) : Type := {
  stringify : JsVal -> W -> Res string * W;
  parse : string -> W -> Res JsVal * W
}.
Arguments stringify {W}.
Arguments parse {W}.

Record Env (W : Type) : Type := {
  utlCanUseSessionStorage : W -> Res bool * W;
  utlGetSessionStorage : string -> W -> Res (option string) * W;
  utlSetSessionStorage : string -> string -> W -> Res unit * W;
  utlRemoveSessionStorage : string -> W -> Res unit * W;
  hasJSON : W -> Res bool * W;
  getJSON : W -> Res (option (JSON W)) * W;
  dateNow : W -> Res Z * W;
  toNumber : JsVal -> Res JsVal;
  dumpObj : Exn -> W -> Res string * W;
  logger_warnToConsole : string -> W -> Res unit * W;
  pageVisitTimeTrackingHandler : JsVal -> JsVal -> JsVal -> W -> Res unit * W
}.
Arguments utlCanUseSessionStorage {W}.
Arguments utlGetSessionStorage {W}.
Arguments utlSetSessionStorage {W}.
Arguments utlRemoveSessionStorage {W}.
Arguments hasJSON {W}.
Arguments getJSON {W}.
Arguments dateNow {W}.
Arguments toNumber {W}.
Arguments dumpObj {W}.
Arguments logger_warnToConsole {W}.
Arguments pageVisitTimeTrackingHandler {W}.

(** ** The manager *)

Module PageVisitData.

(** [new PageVisitData(pageName, pageUrl)] once [dateNow()] has
    answered [now]: the constructor assigns the three fields in this
    order and leaves [pageVisitTime] unassigned. *)
Definition make (pageName pageUrl : string) (now : Z) : JsVal :=
  JObj [("pageVisitStartTime", JNum now);
        ("pageName", JStr pageName);
        ("pageUrl", JStr pageUrl)].

Definition new {W} (env : Env W) (pageName pageUrl : string) : M W JsVal :=
  now <- call (dateNow env) ;;
  ret (make pageName pageUrl now).

End PageVisitData.

Module PageVisitTimeManager.
Section Manager.
Context {W : Type} (env : Env W).

Definition prevPageVisitDataKeyName : string := "prevPageVisitData".

(** [throwError(message)]: [throw new Error(message)]. *)
Definition throwError {A} (message : string) : M W A :=
  throw (ErrorObj message).

Definition warnToConsole (message : string) : M W unit :=
  call_traced (Warned message) (logger_warnToConsole env message).

(** [this._logger.warnToConsole(prefix + dumpObj(e))], the body of the
    four [catch] blocks: [dumpObj(e)] is evaluated first and may itself
    raise. *)
Definition logFailure (prefix : string) (e : Exn) : M W unit :=
  dumped <- call (dumpObj env e) ;;
  warnToConsole (prefix ++ dumped).

Definition invokeHandler (pageName pageUrl pageVisitTime : JsVal) : M W unit :=
  call_traced (Reported pageName pageUrl pageVisitTime)
    (pageVisitTimeTrackingHandler env pageName pageUrl pageVisitTime).

(** [getJSON().stringify(v)]: a TypeError when [getJSON()] is null. *)
Definition getJSON_stringify (v : JsVal) : M W string :=
  json <- call (getJSON env) ;;
  match json with
  | Some j => call (stringify j v)
  | None => throw TypeErrorObj
  end.

Definition getJSON_parse (s : string) : M W JsVal :=
  json <- call (getJSON env) ;;
  match json with
  | Some j => call (parse j s)
  | None => throw TypeErrorObj
  end.

Definition consecutiveStartMessage : string :=
  "Cannot call startPageVisit consecutively without first calling stopPageVisit".

(** The [try] block of [startPageVisitTimer]. *)
Definition startPageVisitTimer_try (pageName pageUrl : string) : M W unit :=
  canUse <- call (utlCanUseSessionStorage env) ;;
  if canUse then
    stored <- call (utlGetSessionStorage env prevPageVisitDataKeyName) ;;
    match stored with
    | Some _ => throwError consecutiveStartMessage
    | None => ret tt
    end ;;;
    currPageVisitData <- PageVisitData.new env pageName pageUrl ;;
    currPageVisitDataStr <- getJSON_stringify currPageVisitData ;;
    call (utlSetSessionStorage env prevPageVisitDataKeyName currPageVisitDataStr)
  else ret tt.

Definition startPageVisitTimer (pageName pageUrl : string) : M W unit :=
  try_catch (startPageVisitTimer_try pageName pageUrl)
    (fun e => logFailure "Call to start failed: " e).

(** The [try] block of [stopPageVisitTimer].  In
    [pageVisitDataJsonStr && hasJSON()] the right operand is evaluated
    only when the string is truthy. *)
Definition stopPageVisitTimer_try : M W JsVal :=
  canUse <- call (utlCanUseSessionStorage env) ;;
  if canUse then
    pageVisitEndTime <- call (dateNow env) ;;
    pageVisitDataJsonStr <- call (utlGetSessionStorage env prevPageVisitDataKeyName) ;;
    match pageVisitDataJsonStr with
    | Some str =>
        if string_truthy str then
          has <- call (hasJSON env) ;;
          if has then
            prevPageVisitData <- getJSON_parse str ;;
            startTime <- lift (get_prop prevPageVisitData "pageVisitStartTime") ;;
            visitTime <- lift (minus (toNumber env) pageVisitEndTime startTime) ;;
            prevPageVisitData' <- lift (set_prop prevPageVisitData "pageVisitTime" visitTime) ;;
            call (utlRemoveSessionStorage env prevPageVisitDataKeyName) ;;;
            ret prevPageVisitData'
          else ret JNull
        else ret JNull
    | None => ret JNull
    end
  else ret JNull.

Definition stopPageVisitTimer : M W JsVal :=
  try_catch stopPageVisitTimer_try
    (fun e =>
       logFailure "Stop page visit timer failed: " e ;;;
       ret JNull).

Definition restartPageVisitTimer_try (pageName pageUrl : string) : M W JsVal :=
  prevPageVisitData <- stopPageVisitTimer ;;
  startPageVisitTimer pageName pageUrl ;;;
  ret prevPageVisitData.

Definition restartPageVisitTimer (pageName pageUrl : string) : M W JsVal :=
  try_catch (restartPageVisitTimer_try pageName pageUrl)
    (fun e =>
       logFailure "Call to restart failed: " e ;;;
       ret JNull).

Definition trackPreviousPageVisit_try (currentPageName currentPageUrl : string) : M W unit :=
  prevPageVisitTimeData <- restartPageVisitTimer currentPageName currentPageUrl ;;
  if truthy prevPageVisitTimeData then
    pageName <- lift (get_prop prevPageVisitTimeData "pageName") ;;
    pageUrl <- lift (get_prop prevPageVisitTimeData "pageUrl") ;;
    pageVisitTime <- lift (get_prop prevPageVisitTimeData "pageVisitTime") ;;
    invokeHandler pageName pageUrl pageVisitTime
  else ret tt.

Definition trackPreviousPageVisit (currentPageName currentPageUrl : string) : M W unit :=
  try_catch (trackPreviousPageVisit_try currentPageName currentPageUrl)
    (fun e =>
       logFailure "Auto track page visit time failed, metric will not be collected: " e).

End Manager.
End PageVisitTimeManager.
Import PageVisitTimeManager.

(** ** An in-memory session

    The persisted slot lives in the session storage, outside the manager.
    [World] is a session whose storage is a finite map, with a clock and
    the two capability flags ([utlCanUseSessionStorage()], [hasJSON()]). *)

Record World : Type := {
  storageUsable : bool;
  sessionStorage : gmap string string;
  clock : Z;
  jsonPresent : bool
}.

(** The serialization facility as a pair of pure functions. *)
Record Codec : Type := {
  encode : JsVal -> Res string;
  decode : string -> Res JsVal
}.

Definition setSessionStorage (m : gmap string string) (w : World) : World :=
  {| storageUsable := storageUsable w;
     sessionStorage := m;
     clock := clock w;
     jsonPresent := jsonPresent w |}.

(** Time passes between two calls of the manager. *)
Definition elapse (dt : Z) (w : World) : World :=
  {| storageUsable := storageUsable w;
     sessionStorage := sessionStorage w;
     clock := clock w + dt;
     jsonPresent := jsonPresent w |}.

Definition setStorageUsable (b : bool) (w : World) : World :=
  {| storageUsable := b;
     sessionStorage := sessionStorage w;
     clock := clock w;
     jsonPresent := jsonPresent w |}.

Definition setJsonPresent (b : bool) (w : World) : World :=
  {| storageUsable := storageUsable w;
     sessionStorage := sessionStorage w;
     clock := clock w;
     jsonPresent := b |}.

Section Session.
Variable codec : Codec.
Variable coerce : JsVal -> Res JsVal.
(** The text [dumpObj] gives for what was caught, when it gives one. *)
Variable dump : Exn -> string.
(** The reporting handler: it sees the session and may raise. *)
Variable handler : JsVal -> JsVal -> JsVal -> World -> Res unit.

(** [dumpObj] serializes what was caught with the JSON facility.  Without
    the facility its own recovery calls [dumpObj] again, without end, and
    the engine raises a RangeError. *)
Definition sessionDumpObj (e : Exn) (w : World) : Res string * World :=
  (if jsonPresent w then Ok (dump e) else Throw RangeErrorObj, w).

Definition sessionJSON : JSON World :=
  {| stringify := fun v w => (encode codec v, w);
     parse := fun s w => (decode codec s, w) |}.

Definition sessionEnv : Env World :=
  {| utlCanUseSessionStorage := fun w => (Ok (storageUsable w), w);
     utlGetSessionStorage := fun k w => (Ok (sessionStorage w !! k), w);
     utlSetSessionStorage := fun k v w =>
       (Ok tt, setSessionStorage (<[k := v]> (sessionStorage w)) w);
     utlRemoveSessionStorage := fun k w =>
       (Ok tt, setSessionStorage (delete k (sessionStorage w)) w);
     hasJSON := fun w => (Ok (jsonPresent w), w);
     getJSON := fun w =>
       (Ok (if jsonPresent w then Some sessionJSON else None), w);
     dateNow := fun w => (Ok (clock w), w);
     toNumber := coerce;
     dumpObj := sessionDumpObj;
     logger_warnToConsole := fun _ w => (Ok tt, w);
     pageVisitTimeTrackingHandler := fun n u t w => (handler n u t w, w) |}.

(** The slot of the manager in the session storage. *)
Definition slot (w : World) : option string :=
  sessionStorage w !! prevPageVisitDataKeyName.

(** What a caller of the manager, or the passing of time, does to the
    session. *)
Inductive Action : Type :=
| Start (pageName pageUrl : string)
| Stop
| Restart (pageName pageUrl : string)
| Track (pageName pageUrl : string)
| Elapse (dt : Z)
| StorageUsable (b : bool)
| JsonPresent (b : bool).

Definition perform (a : Action) (w : World) : World :=
  match a with
  | Start n u => worldOf (startPageVisitTimer sessionEnv n u w)
  | Stop => worldOf (stopPageVisitTimer sessionEnv w)
  | Restart n u => worldOf (restartPageVisitTimer sessionEnv n u w)
  | Track n u => worldOf (trackPreviousPageVisit sessionEnv n u w)
  | Elapse dt => elapse dt w
  | StorageUsable b => setStorageUsable b w
  | JsonPresent b => setJsonPresent b w
  end.

Definition performAll (acts : list Action) (w : World) : World :=
  fold_left (fun w a => perform a w) acts w.

(** The slot is empty or holds the serialization of a record as its
    constructor built it. *)
Definition slotUnfinalized (w : World) : Prop :=
  match slot w with
  | None => True
  | Some s => exists pageName pageUrl t, encode codec (PageVisitData.make pageName pageUrl t) = Ok s
  end.

End Session.

(** The calls of the reporting handler in a trace. *)
Definition reports (t : list Event) : list (JsVal * JsVal * JsVal) :=
  flat_map (fun ev => match ev with
                      | Reported n u d => [(n, u, d)]
                      | Warned _ => []
                      end) t.


(** ** A serialization facility to run the manager with

    JSON text for the records the manager stores: an object whose
    properties are strings, integers, booleans or null, printed without
    white space, with the backslash escapes of the double quote and of the
    backslash.  A property whose value is [undefined] is left out, as
    [JSON.stringify] does. *)

Module MiniJSON.

Definition dquote : ascii := Ascii.ascii_of_nat 34.
Definition bslash : ascii := Ascii.ascii_of_nat 92.

Definition syntaxError : Exn := Foreign (JStr "SyntaxError").
Definition unsupported : Exn := Foreign (JStr "unsupported value").

Fixpoint escape (s : string) : string :=
  match s with
  | EmptyString => EmptyString
  | String c r =>
      if Ascii.eqb c dquote || Ascii.eqb c bslash
      then String bslash (String c (escape r))
      else String c (escape r)
  end.

Definition quote (s : string) : string :=
  String dquote (escape s ++ String dquote EmptyString).

Definition printNumber (n : Z) : string :=
  DecimalString.NilZero.string_of_int (Z.to_int n).

Definition printPrimitive (v : JsVal) : Res string :=
  match v with
  | JNum n => Ok (printNumber n)
  | JStr s => Ok (quote s)
  | JBool true => Ok "true"
  | JBool false => Ok "false"
  | JNull | JNaN => Ok "null"
  | JUndefined | JObj _ => Throw unsupported
  end.

Fixpoint printMembers (props : list (string * JsVal)) (first : bool) : Res string :=
  match props with
  | [] => Ok EmptyString
  | (_, JUndefined) :: rest => printMembers rest first
  | (k, v) :: rest =>
      match printPrimitive v, printMembers rest false with
      | Ok pv, Ok more =>
          Ok ((if first then EmptyString else ",") ++ quote k ++ ":" ++ pv ++ more)
      | Throw e, _ | _, Throw e => Throw e
      end
  end.

Definition print (v : JsVal) : Res string :=
  match v with
  | JObj props =>
      match printMembers props true with
      | Ok members => Ok ("{" ++ members ++ "}")
      | Throw e => Throw e
      end
  | _ => printPrimitive v
  end.

(** The characters of a string literal after its opening quote. *)
Fixpoint readString (s : string) : option (string * string) :=
  match s with
  | EmptyString => None
  | String c r =>
      if Ascii.eqb c dquote then Some (EmptyString, r)
      else if Ascii.eqb c bslash then
        match r with
        | String d r' =>
            if Ascii.eqb d dquote || Ascii.eqb d bslash then
              match readString r' with
              | Some (x, rest) => Some (String d x, rest)
              | None => None
              end
            else None
        | EmptyString => None
        end
      else
        match readString r with
        | Some (x, rest) => Some (String c x, rest)
        | None => None
        end
  end.

Definition isNumberChar (c : ascii) : bool :=
  let n := Ascii.nat_of_ascii c in
  ((48 <=? n)%nat && (n <=? 57)%nat) || Ascii.eqb c "-".

Fixpoint spanNumber (s : string) : string * string :=
  match s with
  | EmptyString => (EmptyString, EmptyString)
  | String c r =>
      if isNumberChar c
      then match spanNumber r with (a, b) => (String c a, b) end
      else (EmptyString, s)
  end.

Fixpoint stripPrefix (p s : string) : option string :=
  match p, s with
  | EmptyString, _ => Some s
  | String a p', String b s' => if Ascii.eqb a b then stripPrefix p' s' else None
  | String _ _, EmptyString => None
  end.

Definition readPrimitive (s : string) : option (JsVal * string) :=
  match s with
  | EmptyString => None
  | String c r =>
      if Ascii.eqb c dquote then
        match readString r with
        | Some (x, rest) => Some (JStr x, rest)
        | None => None
        end
      else
        match stripPrefix "null" s, stripPrefix "true" s, stripPrefix "false" s with
        | Some rest, _, _ => Some (JNull, rest)
        | _, Some rest, _ => Some (JBool true, rest)
        | _, _, Some rest => Some (JBool false, rest)
        | None, None, None =>
            match spanNumber s with
            | (digits, rest) =>
                match DecimalString.NilZero.int_of_string digits with
                | Some d => Some (JNum (Z.of_int d), rest)
                | None => None
                end
            end
        end
  end.

(** The members of an object after its opening brace, up to and
    including the closing brace. *)
Fixpoint readMembers (fuel : nat) (s : string) : option (list (string * JsVal) * string) :=
  match fuel with
  | O => None
  | S fuel' =>
      match s with
      | String q r =>
          if Ascii.eqb q dquote then
            match readString r with
            | Some (k, String colon r1) =>
                if Ascii.eqb colon ":" then
                  match readPrimitive r1 with
                  | Some (v, String sep r2) =>
                      if Ascii.eqb sep "," then
                        match readMembers fuel' r2 with
                        | Some (more, rest) => Some ((k, v) :: more, rest)
                        | None => None
                        end
                      else if Ascii.eqb sep "}" then Some ([(k, v)], r2)
                      else None
                  | _ => None
                  end
                else None
            | _ => None
            end
          else None
      | EmptyString => None
      end
  end.

Definition read (s : string) : Res JsVal :=
  match s with
  | String c r =>
      if Ascii.eqb c "{" then
        match r with
        | String d r' =>
            if Ascii.eqb d "}" then
              match r' with
              | EmptyString => Ok (JObj [])
              | String _ _ => Throw syntaxError
              end
            else
              match readMembers (String.length s) r with
              | Some (props, EmptyString) => Ok (JObj props)
              | _ => Throw syntaxError
              end
        | EmptyString => Throw syntaxError
        end
      else
        match readPrimitive s with
        | Some (v, EmptyString) => Ok v
        | _ => Throw syntaxError
        end
  | EmptyString => Throw syntaxError
  end.

Definition codec : Codec := {| encode := print; decode := read |}.

End MiniJSON.

(** A logger helper to run the manager with: how [dumpObj] flattens what
    was caught. *)
Definition describe (e : Exn) : string :=
  match e with
  | ErrorObj m => "Error: " ++ m
  | TypeErrorObj => "TypeError"
  | RangeErrorObj => "RangeError"
  | Foreign (JStr s) => s
  | Foreign _ => "[object]"
  end.

(** ** Vocabulary of the properties *)

Section Vocabulary.
Context {W : Type} (env : Env W).

(** The logger accepts every warning. *)
Definition loggerTotal : Prop :=
  forall message w, exists w', logger_warnToConsole env message w = (Ok tt, w').




(** [m] never calls the reporting handler. *)
Definition silent {A} (m : M W A) : Prop :=
  forall w, reports (traceOf (m w)) = [].

(** Whatever [m] returns satisfies [P]. *)
Definition yields {A} (P : A -> Prop) (m : M W A) : Prop :=
  forall w a, resultOf (m w) = Ok a -> P a.

(** The composition the specification describes for [restart]:
    [stop()], then [start(pageName, pageUrl)], answering what [stop()]
    answered. *)
Definition restart_spec (pageName pageUrl : string) : M W JsVal :=
  fun w =>
    let stopped := stopPageVisitTimer env w in
    let started := startPageVisitTimer env pageName pageUrl (worldOf stopped) in
    (resultOf stopped, worldOf started, (traceOf stopped ++ traceOf started)%list).

End Vocabulary.

Definition isNumber (v : JsVal) : Prop :=
  match v with
  | JNum _ | JNaN => True
  | _ => False
  end.

(** [null], or an object that carries a duration. *)
Definition nullOrFinalized (v : JsVal) : Prop :=
  v = JNull \/ exists props, v = JObj props /\ isNumber (lookup_prop props "pageVisitTime").

(** What [trackPreviousPageVisit] hands to the reporting handler, from
    what [restartPageVisitTimer] answered. *)
Definition reportsFor (restarted : Res JsVal) : list (JsVal * JsVal * JsVal) :=
  match restarted with
  | Ok (JObj props) =>
      [(lookup_prop props "pageName",
        lookup_prop props "pageUrl",
        lookup_prop props "pageVisitTime")]
  | _ => []
  end.

(** The record [stop] answers for a visit of [pageName], [pageUrl] begun
    at [began] and stopped at [ended]. *)
Definition finalized (pageName pageUrl : string) (began ended : Z) : JsVal :=
  JObj [("pageVisitStartTime", JNum began);
        ("pageName", JStr pageName);
        ("pageUrl", JStr pageUrl);
        ("pageVisitTime", JNum (ended - began))].

(** The session with the slot removed, and with [s] written to it. *)
Definition cleared (w : World) : World :=
  setSessionStorage (delete prevPageVisitDataKeyName (sessionStorage w)) w.

Definition written (s : string) (w : World) : World :=
  setSessionStorage (<[prevPageVisitDataKeyName := s]> (sessionStorage w)) w.

(** The serialization facility prints every fresh record to a non-empty
    string and reads that string back to the record. *)
Definition recordsRoundTrip (codec : Codec) : Prop :=
  forall pageName pageUrl t,
    exists s, encode codec (PageVisitData.make pageName pageUrl t) = Ok s
              /\ string_truthy s = true
              /\ decode codec s = Ok (PageVisitData.make pageName pageUrl t).

Fixpoint allNumberChars (s : string) : bool :=
  match s with
  | EmptyString => true
  | String c r => MiniJSON.isNumberChar c && allNumberChars r
  end.

(** A member value [v] that [MiniJSON] prints as [pv]: a number or a
    string. *)
Definition printable (v : JsVal) (pv : string) : Prop :=
  (exists n, v = JNum n /\ pv = MiniJSON.printNumber n)
  \/ (exists x, v = JStr x /\ pv = MiniJSON.quote x).

(** ** A session to run the manager in *)

Definition quietHandler : JsVal -> JsVal -> JsVal -> World -> Res unit :=
  fun _ _ _ _ => Ok tt.

Definition failingHandler : JsVal -> JsVal -> JsVal -> World -> Res unit :=
  fun _ _ _ _ => Throw (ErrorObj "handler failed").

Definition noCoercion : JsVal -> Res JsVal := fun _ => Ok JNaN.

Definition demoEnv : Env World :=
  sessionEnv MiniJSON.codec noCoercion describe quietHandler.

Definition failingEnv : Env World :=
  sessionEnv MiniJSON.codec noCoercion describe failingHandler.

(** An idle session at time 1000. *)
Definition idleWorld : World :=
  {| storageUsable := true;
     sessionStorage := ∅;
     clock := 1000;
     jsonPresent := true |}.

(** Five milliseconds after [start("p1", "u1")] in the idle session. *)
Definition timingWorld : World :=
  elapse 5 (worldOf (startPageVisitTimer demoEnv "p1" "u1" idleWorld)).

(** The text of the record of [timingWorld]. *)
Definition timingText : string :=
  match MiniJSON.print (PageVisitData.make "p1" "u1" 1000) with
  | Ok s => s
  | Throw _ => EmptyString
  end.

(** A walk through the manager, and the text of the record it leaves in
    the slot. *)
Definition demoActions : list Action :=
  [Start "p1" "u1"; Elapse 5; Track "p2" "u2"; Start "p3" "u3"].

Definition trackedText : string :=
  match MiniJSON.print (PageVisitData.make "p2" "u2" 1005) with
  | Ok s => s
  | Throw _ => EmptyString
  end.

(** [env] with another logger. *)
Definition withLogger {W} (env : Env W) (logger : string -> W -> Res unit * W) : Env W :=
  {| utlCanUseSessionStorage := utlCanUseSessionStorage env;
     utlGetSessionStorage := utlGetSessionStorage env;
     utlSetSessionStorage := utlSetSessionStorage env;
     utlRemoveSessionStorage := utlRemoveSessionStorage env;
     hasJSON := hasJSON env;
     getJSON := getJSON env;
     dateNow := dateNow env;
     toNumber := toNumber env;
     dumpObj := dumpObj env;
     logger_warnToConsole := logger;
     pageVisitTimeTrackingHandler := pageVisitTimeTrackingHandler env |}.



(** A logger that raises. *)
Definition raisingLoggerEnv : Env World :=
  withLogger demoEnv (fun _ w => (Throw (ErrorObj "logger failed"), w)).

(** ** Runs of the manager and what they emit *)

Section Runs.
Variable codec : Codec.
Variable coerce : JsVal -> Res JsVal.
Variable dump : Exn -> string.
Variable handler : JsVal -> JsVal -> JsVal -> World -> Res unit.

(** The events an action emits: those of the call it stands for. *)
Definition emitted (a : Action) (w : World) : list Event :=
  match a with
  | Start n u => traceOf (startPageVisitTimer (sessionEnv codec coerce dump handler) n u w)
  | Stop => traceOf (stopPageVisitTimer (sessionEnv codec coerce dump handler) w)
  | Restart n u => traceOf (restartPageVisitTimer (sessionEnv codec coerce dump handler) n u w)
  | Track n u => traceOf (trackPreviousPageVisit (sessionEnv codec coerce dump handler) n u w)
  | Elapse _ | StorageUsable _ | JsonPresent _ => []
  end.

Fixpoint emittedAll (acts : list Action) (w : World) : list Event :=
  match acts with
  | [] => []
  | a :: rest =>
      (emitted a w ++ emittedAll rest (perform codec coerce dump handler a w))%list
  end.

End Runs.

(** A call of one of the four methods, as opposed to a change of the
    environment. *)
Definition isCall (a : Action) : bool :=
  match a with
  | Start _ _ | Stop | Restart _ _ | Track _ _ => true
  | Elapse _ | StorageUsable _ | JsonPresent _ => false
  end.

Definition keepsCapabilities (a : Action) : bool :=
  match a with
  | StorageUsable _ | JsonPresent _ => false
  | _ => true
  end.

(** A navigation: on entering each page the caller calls
    [trackPreviousPageVisit], then stays for the given time. *)
Definition navigate (pages : list (string * string * Z)) : list Action :=
  flat_map (fun p => [Track (fst (fst p)) (snd (fst p)); Elapse (snd p)]) pages.

Definition reportOf (p : string * string * Z) : JsVal * JsVal * JsVal :=
  (JStr (fst (fst p)), JStr (snd (fst p)), JNum (snd p)).

(** Every page but the last, with the time spent on it. *)
Definition dwellReports (pages : list (string * string * Z)) : list (JsVal * JsVal * JsVal) :=
  map reportOf (removelast pages).

(** The reports of a navigation that begins while [pageName], [pageUrl]
    has been timed for [elapsed]. *)
Fixpoint reportsFrom (pageName pageUrl : string) (elapsed : Z)
  (pages : list (string * string * Z)) : list (JsVal * JsVal * JsVal) :=
  match pages with
  | [] => []
  | (n, u, d) :: rest => (JStr pageName, JStr pageUrl, JNum elapsed) :: reportsFrom n u d rest
  end.

Fixpoint lastPage (pageName pageUrl : string) (pages : list (string * string * Z))
  : string * string :=
  match pages with
  | [] => (pageName, pageUrl)
  | (n, u, _) :: rest => lastPage n u rest
  end.

Definition isObject (v : JsVal) : bool :=
  match v with
  | JObj _ => true
  | _ => false
  end.

(** A stored text [stop] cannot finalize: empty, or not parsable, or
    parsed to something that is not an object. *)
Definition unreadable (codec : Codec) (s : string) : Prop :=
  string_truthy s = false
  \/ (exists e, decode codec s = Throw e)
  \/ (exists v, decode codec s = Ok v /\ isObject v = false).



(** Sessions to run the extra cases in. *)
Definition poisonedWorld : World := written "null" idleWorld.

Definition emptyObjectWorld : World := written "{}" idleWorld.

Definition noJsonWorld : World := setJsonPresent false idleWorld.

Definition demoPages : list (string * string * Z) :=
  [("p1", "u1", 5); ("p2", "u2", 7); ("p3", "u3", 11)].

(** * Properties *)

(** ** Equations of the monad *)

Section MonadFacts.
Context {W : Type}.

Lemma bind_ok {A B} (m : M W A) (k : A -> M W B) w a w1 t1 :
  m w = (Ok a, w1, t1) ->
  bind m k w = (resultOf (k a w1), worldOf (k a w1), (t1 ++ traceOf (k a w1))%list).
Proof.
  intros H. unfold bind. rewrite H.
  destruct (k a w1) as [[r w2] t2]. reflexivity.
Qed.

Lemma try_catch_ok {A} (body : M W A) handler w a w1 t1 :
  body w = (Ok a, w1, t1) -> try_catch body handler w = (Ok a, w1, t1).
Proof. intros H. unfold try_catch. rewrite H. reflexivity. Qed.

Lemma try_catch_throw {A} (body : M W A) handler w e w1 t1 :
  body w = (Throw e, w1, t1) ->
  try_catch body handler w =
    (resultOf (handler e w1), worldOf (handler e w1),
     (t1 ++ traceOf (handler e w1))%list).
Proof.
  intros H. unfold try_catch. rewrite H.
  destruct (handler e w1) as [[r w2] t2]. reflexivity.
Qed.

End MonadFacts.

Lemma reports_app t1 t2 : reports (t1 ++ t2) = (reports t1 ++ reports t2)%list.
Proof. unfold reports. apply flat_map_app. Qed.

(** ** The manager against arbitrary capabilities *)

Section Generic.
Context {W : Type} (env : Env W).










(** *** Computations that only warn *)

Lemma silent_ret {A} (a : A) : silent (@ret W A a).
Proof. intros w. reflexivity. Qed.

Lemma silent_throw {A} e : silent (@throw W A e).
Proof. intros w. reflexivity. Qed.

Lemma silent_lift {A} (r : Res A) : silent (@lift W A r).
Proof. intros w. reflexivity. Qed.

Lemma silent_call {A} (c : W -> Res A * W) : silent (call c).
Proof. intros w. unfold call. destruct (c w). reflexivity. Qed.

Lemma silent_warn message : silent (warnToConsole env message).
Proof.
  intros w. unfold warnToConsole, call_traced.
  destruct (logger_warnToConsole env message w). reflexivity.
Qed.

Lemma silent_bind {A B} (m : M W A) (k : A -> M W B) :
  silent m -> (forall a, silent (k a)) -> silent (bind m k).
Proof.
  intros Hm Hk w. specialize (Hm w). unfold bind.
  destruct (m w) as [[[a|e] w1] t1]; simpl in *.
  - specialize (Hk a w1). destruct (k a w1) as [[r w2] t2]; simpl in *.
    rewrite reports_app, Hm, Hk. reflexivity.
  - exact Hm.
Qed.

Lemma silent_try_catch {A} (body : M W A) handler :
  silent body -> (forall e, silent (handler e)) -> silent (try_catch body handler).
Proof.
  intros Hb Hh w. specialize (Hb w). unfold try_catch.
  destruct (body w) as [[[a|e] w1] t1]; simpl in *.
  - exact Hb.
  - specialize (Hh e w1). destruct (handler e w1) as [[r w2] t2]; simpl in *.
    rewrite reports_app, Hb, Hh. reflexivity.
Qed.

Lemma silent_logFailure prefix e : silent (logFailure env prefix e).
Proof.
  unfold logFailure. apply silent_bind; [ apply silent_call | ].
  intros dumped. apply silent_warn.
Qed.

Ltac silence :=
  repeat first
    [ apply silent_ret | apply silent_throw | apply silent_lift
    | apply silent_call | apply silent_warn | apply silent_logFailure
    | apply silent_try_catch; [ | intros ? ]
    | apply silent_bind; [ | intros ? ]
    | match goal with
      | |- silent (match ?x with _ => _ end) => destruct x
      | |- silent (if ?x then _ else _) => destruct x
      end ].

Lemma silent_start n u : silent (startPageVisitTimer env n u).
Proof.
  unfold startPageVisitTimer, startPageVisitTimer_try, PageVisitData.new,
    getJSON_stringify, throwError.
  silence.
Qed.

Lemma silent_stop : silent (stopPageVisitTimer env).
Proof.
  unfold stopPageVisitTimer, stopPageVisitTimer_try, getJSON_parse.
  silence.
Qed.

Lemma silent_restart n u : silent (restartPageVisitTimer env n u).
Proof.
  unfold restartPageVisitTimer, restartPageVisitTimer_try.
  pose proof silent_stop. pose proof (silent_start n u).
  silence; assumption.
Qed.

End Generic.

(** ** What [stop] and [restart] answer *)

Lemma lookup_assign_same props k v : lookup_prop (assign_prop props k v) k = v.
Proof.
  induction props as [|[k' v'] rest IH]; simpl.
  - rewrite String.eqb_refl. reflexivity.
  - destruct (String.eqb k' k) eqn:Hk; simpl; rewrite Hk; [ reflexivity | exact IH ].
Qed.

Lemma minus_isNumber coerce a b d : minus coerce a b = Ok d -> isNumber d.
Proof.
  destruct b; simpl; try (intros [= <-]; exact I).
  - destruct (coerce (JStr s)) as [[]|]; intros [= <-]; exact I.
  - destruct (coerce (JObj props)) as [[]|]; intros [= <-]; exact I.
Qed.

Lemma set_prop_finalized v x v' :
  isNumber x -> set_prop v "pageVisitTime" x = Ok v' -> nullOrFinalized v'.
Proof.
  intros Hx. destruct v; simpl; intros [= <-].
  right. eexists. split; [ reflexivity | ]. rewrite lookup_assign_same. exact Hx.
Qed.

Section Answers.
Context {W : Type} (env : Env W).

Lemma yields_ret {A} (P : A -> Prop) a : P a -> yields P (@ret W A a).
Proof. intros H w b [= <-]. exact H. Qed.

Lemma yields_bind {A B} (P : B -> Prop) (m : M W A) (k : A -> M W B) :
  (forall a, yields P (k a)) -> yields P (bind m k).
Proof.
  intros Hk w b. unfold bind.
  destruct (m w) as [[[a|e] w1] t1]; simpl.
  - specialize (Hk a w1 b). destruct (k a w1) as [[r w2] t2]; simpl in *. exact Hk.
  - discriminate.
Qed.

Lemma yields_try_catch {A} (P : A -> Prop) (body : M W A) handler :
  yields P body -> (forall e, yields P (handler e)) -> yields P (try_catch body handler).
Proof.
  intros Hb Hh w b. specialize (Hb w b). unfold try_catch.
  destruct (body w) as [[[a|e] w1] t1]; simpl in *.
  - exact Hb.
  - specialize (Hh e w1 b). destruct (handler e w1) as [[r w2] t2]; simpl in *. exact Hh.
Qed.

Lemma yields_null : yields nullOrFinalized (@ret W JsVal JNull).
Proof. apply yields_ret. left. reflexivity. Qed.

Lemma stop_yields : yields nullOrFinalized (stopPageVisitTimer env).
Proof.
  unfold stopPageVisitTimer, stopPageVisitTimer_try.
  apply yields_try_catch.
  - apply yields_bind. intros canUse. destruct canUse; [ | apply yields_null ].
    apply yields_bind. intros endTime. apply yields_bind. intros stored.
    destruct stored as [str|]; [ | apply yields_null ].
    destruct (string_truthy str); [ | apply yields_null ].
    apply yields_bind. intros has. destruct has; [ | apply yields_null ].
    apply yields_bind. intros prev. apply yields_bind. intros startTime.
    intros w a. unfold bind, lift.
    destruct (minus (toNumber env) endTime startTime) as [visitTime|e] eqn:Hminus;
      simpl; [ | discriminate ].
    destruct (set_prop prev "pageVisitTime" visitTime) as [prev'|e] eqn:Hset;
      simpl; [ | discriminate ].
    unfold call.
    destruct (utlRemoveSessionStorage env prevPageVisitDataKeyName w) as [[[]|e] w1];
      simpl; [ | discriminate ].
    intros [= <-].
    eapply set_prop_finalized; [ eapply minus_isNumber, Hminus | exact Hset ].
  - intros e. apply yields_bind. intros _. apply yields_null.
Qed.

Lemma restart_yields n u : yields nullOrFinalized (restartPageVisitTimer env n u).
Proof.
  unfold restartPageVisitTimer, restartPageVisitTimer_try.
  apply yields_try_catch.
  - intros w a. unfold bind.
    destruct (stopPageVisitTimer env w) as [[[prev|e] w1] t1] eqn:Hs; simpl.
    2: discriminate.
    destruct (startPageVisitTimer env n u w1) as [[[[]|e] w2] t2]; simpl.
    2: discriminate.
    intros [= <-]. apply (stop_yields w). rewrite Hs. reflexivity.
  - intros e. apply yields_bind. intros _. apply yields_null.
Qed.


Lemma trace_invoke a b c w :
  traceOf (invokeHandler env a b c w) = [Reported a b c].
Proof.
  unfold invokeHandler, call_traced.
  destruct (pageVisitTimeTrackingHandler env a b c w). reflexivity.
Qed.

Lemma track_reports n u w :
  reports (traceOf (trackPreviousPageVisit env n u w))
  = reportsFor (resultOf (restartPageVisitTimer env n u w)).
Proof.
  pose proof (silent_restart env n u w) as Hsilent.
  pose proof (restart_yields n u w) as Hshape.
  unfold trackPreviousPageVisit, trackPreviousPageVisit_try, try_catch, bind.
  destruct (restartPageVisitTimer env n u w) as [[[prev|e] w1] t1]; simpl in *.
  - destruct (Hshape prev eq_refl) as [-> | (props & -> & _)]; simpl.
    + rewrite app_nil_r. exact Hsilent.
    + unfold lift; simpl.
      pose proof (trace_invoke (lookup_prop props "pageName")
                    (lookup_prop props "pageUrl")
                    (lookup_prop props "pageVisitTime") w1) as Hinv.
      destruct (invokeHandler env _ _ _ w1) as [[[[]|e] w2] t2]; simpl in *; subst t2.
      * rewrite reports_app, Hsilent. reflexivity.
      * pose proof (silent_logFailure env
          "Auto track page visit time failed, metric will not be collected: " e w2)
          as Hlog.
        destruct (logFailure env _ e w2) as [[r w3] t3]; simpl in *.
        rewrite !reports_app, Hsilent, Hlog. reflexivity.
  - pose proof (silent_logFailure env
      "Auto track page visit time failed, metric will not be collected: " e w1)
      as Hlog.
    destruct (logFailure env _ e w1) as [[r w3] t3]; simpl in *.
    rewrite reports_app, Hsilent, Hlog. reflexivity.
Qed.

(** [restart] where its [stop] and its [start] return. *)
Lemma restart_when_returns n u w prev w1 t1 w2 t2 :
  stopPageVisitTimer env w = (Ok prev, w1, t1) ->
  startPageVisitTimer env n u w1 = (Ok tt, w2, t2) ->
  restartPageVisitTimer env n u w = (Ok prev, w2, (t1 ++ t2)%list).
Proof.
  intros Hstop Hstart.
  unfold restartPageVisitTimer. apply try_catch_ok.
  unfold restartPageVisitTimer_try.
  rewrite (bind_ok _ _ _ _ _ _ Hstop), (bind_ok _ _ _ _ _ _ Hstart).
  cbn [ret resultOf worldOf traceOf fst snd]. rewrite app_nil_r. reflexivity.
Qed.


Lemma unavailable_start n u w :
  utlCanUseSessionStorage env w = (Ok false, w) ->
  startPageVisitTimer env n u w = (Ok tt, w, []).
Proof.
  intros H. apply try_catch_ok. unfold startPageVisitTimer_try, bind, call.
  rewrite H. reflexivity.
Qed.

Lemma unavailable_stop w :
  utlCanUseSessionStorage env w = (Ok false, w) ->
  stopPageVisitTimer env w = (Ok JNull, w, []).
Proof.
  intros H. apply try_catch_ok. unfold stopPageVisitTimer_try, bind, call.
  rewrite H. reflexivity.
Qed.

Lemma unavailable_restart n u w :
  utlCanUseSessionStorage env w = (Ok false, w) ->
  restartPageVisitTimer env n u w = (Ok JNull, w, []).
Proof.
  intros H. apply try_catch_ok. unfold restartPageVisitTimer_try.
  rewrite (bind_ok _ _ _ _ _ _ (unavailable_stop w H)).
  rewrite (bind_ok _ _ _ _ _ _ (unavailable_start n u w H)). reflexivity.
Qed.

Lemma unavailable_track n u w :
  utlCanUseSessionStorage env w = (Ok false, w) ->
  trackPreviousPageVisit env n u w = (Ok tt, w, []).
Proof.
  intros H. apply try_catch_ok. unfold trackPreviousPageVisit_try.
  rewrite (bind_ok _ _ _ _ _ _ (unavailable_restart n u w H)). reflexivity.
Qed.

End Answers.

(** ** The manager on an in-memory session *)

Ltac unfold_manager :=
  unfold trackPreviousPageVisit, trackPreviousPageVisit_try,
    restartPageVisitTimer, restartPageVisitTimer_try,
    startPageVisitTimer, startPageVisitTimer_try,
    stopPageVisitTimer, stopPageVisitTimer_try,
    getJSON_stringify, getJSON_parse, PageVisitData.new,
    warnToConsole, invokeHandler, throwError,
    bind, call, call_traced, lift, ret, throw.

Section SessionFacts.
Variable codec : Codec.
Variable coerce : JsVal -> Res JsVal.
Variable dump : Exn -> string.
Variable handler : JsVal -> JsVal -> JsVal -> World -> Res unit.

Local Notation "'E'" := (sessionEnv codec coerce dump handler).

Lemma session_loggerTotal : loggerTotal E.
Proof. intros message w. exists w. reflexivity. Qed.

(** The [catch] blocks on a session: with JSON the failure is logged,
    without it [dumpObj] raises and nothing is logged; the session is as
    it was either way. *)
Lemma session_logFailure prefix e w :
  logFailure E prefix e w
  = if jsonPresent w then (Ok tt, w, [Warned (prefix ++ dump e)])
    else (Throw RangeErrorObj, w, []).
Proof.
  unfold logFailure, warnToConsole, bind, call, call_traced; simpl.
  unfold sessionDumpObj. destruct (jsonPresent w); reflexivity.
Qed.

Lemma logFailure_world prefix e w : worldOf (logFailure E prefix e w) = w.
Proof. rewrite session_logFailure. destruct (jsonPresent w); reflexivity. Qed.

(** The ways the [try] block of [start] ends on a session. *)
Lemma start_try_cases n u w :
  (exists s,
      storageUsable w = true /\ slot w = None /\ jsonPresent w = true
      /\ encode codec (PageVisitData.make n u (clock w)) = Ok s
      /\ startPageVisitTimer_try E n u w = (Ok tt, written s w, []))
  \/ (storageUsable w = false /\ startPageVisitTimer_try E n u w = (Ok tt, w, []))
  \/ (storageUsable w = true
      /\ (slot w <> None \/ jsonPresent w = false
          \/ exists e, encode codec (PageVisitData.make n u (clock w)) = Throw e)
      /\ exists e, startPageVisitTimer_try E n u w = (Throw e, w, [])).
Proof.
  unfold slot. unfold_manager. simpl.
  destruct (storageUsable w); [ | right; left; split; reflexivity ].
  destruct (sessionStorage w !! prevPageVisitDataKeyName) as [s0|] eqn:Hslot.
  { right. right. split; [ reflexivity | ]. split; [ left; discriminate | ].
    eexists. reflexivity. }
  simpl. destruct (jsonPresent w) eqn:Hj.
  2: { right. right. split; [ reflexivity | ]. split; [ right; left; reflexivity | ].
       eexists. reflexivity. }
  simpl. destruct (encode codec (PageVisitData.make n u (clock w))) as [s|e] eqn:Henc.
  - left. exists s. repeat split.
  - right. right. split; [ reflexivity | ]. split; [ right; right; eauto | ].
    eexists. reflexivity.
Qed.

Lemma start_idle n u w s :
  storageUsable w = true -> jsonPresent w = true -> slot w = None ->
  encode codec (PageVisitData.make n u (clock w)) = Ok s ->
  startPageVisitTimer E n u w = (Ok tt, written s w, []).
Proof.
  unfold slot. intros Hs Hj Hslot Henc. apply try_catch_ok.
  unfold_manager. simpl.
  rewrite Hs, Hslot. simpl. rewrite Hj. simpl. rewrite Henc. reflexivity.
Qed.

Lemma start_busy_try n u w s :
  storageUsable w = true -> slot w = Some s ->
  startPageVisitTimer_try E n u w = (Throw (ErrorObj consecutiveStartMessage), w, []).
Proof.
  unfold slot. intros Hs Hslot. unfold_manager. simpl.
  rewrite Hs, Hslot. reflexivity.
Qed.

Lemma start_busy n u w s :
  storageUsable w = true -> jsonPresent w = true -> slot w = Some s ->
  startPageVisitTimer E n u w
  = (Ok tt, w,
     [Warned ("Call to start failed: " ++ dump (ErrorObj consecutiveStartMessage))]).
Proof.
  intros Hs Hj Hslot. unfold startPageVisitTimer.
  rewrite (try_catch_throw _ _ _ _ _ _ (start_busy_try n u w s Hs Hslot)).
  rewrite session_logFailure, Hj. reflexivity.
Qed.

(** Without JSON the consecutive-start error is replaced, in the [catch]
    block, by the RangeError of [dumpObj], which leaves [start]. *)
Lemma start_busy_without_json n u w s :
  storageUsable w = true -> jsonPresent w = false -> slot w = Some s ->
  startPageVisitTimer E n u w = (Throw RangeErrorObj, w, []).
Proof.
  intros Hs Hj Hslot. unfold startPageVisitTimer.
  rewrite (try_catch_throw _ _ _ _ _ _ (start_busy_try n u w s Hs Hslot)).
  rewrite session_logFailure, Hj. reflexivity.
Qed.

(** [start] on a session returns, or, without JSON, raises the
    RangeError of [dumpObj] and leaves the session as it was. *)
Lemma start_outcome n u w :
  (exists w' t, startPageVisitTimer E n u w = (Ok tt, w', t))
  \/ (jsonPresent w = false
      /\ startPageVisitTimer E n u w = (Throw RangeErrorObj, w, [])).
Proof.
  unfold startPageVisitTimer.
  destruct (start_try_cases n u w)
    as [(s & _ & _ & _ & _ & H) | [[_ H] | (_ & _ & e & H)]].
  - left. rewrite (try_catch_ok _ _ _ _ _ _ H). eauto.
  - left. rewrite (try_catch_ok _ _ _ _ _ _ H). eauto.
  - rewrite (try_catch_throw _ _ _ _ _ _ H), session_logFailure.
    destruct (jsonPresent w).
    + left. eauto.
    + right. split; reflexivity.
Qed.

Lemma stop_idle w : slot w = None -> stopPageVisitTimer E w = (Ok JNull, w, []).
Proof.
  unfold slot. intros Hslot. apply try_catch_ok. unfold_manager. simpl.
  destruct (storageUsable w); [ | reflexivity ].
  rewrite Hslot. reflexivity.
Qed.

Lemma stop_record n u t0 w s :
  storageUsable w = true -> jsonPresent w = true ->
  slot w = Some s -> string_truthy s = true ->
  decode codec s = Ok (PageVisitData.make n u t0) ->
  stopPageVisitTimer E w = (Ok (finalized n u t0 (clock w)), cleared w, []).
Proof.
  unfold slot. intros Hs Hj Hslot Htruthy Hdec. apply try_catch_ok.
  unfold_manager. simpl.
  rewrite Hs, Hslot, Htruthy. simpl. rewrite Hj. simpl. rewrite Hj. simpl.
  rewrite Hdec. reflexivity.
Qed.

Lemma stop_left_in_place w s :
  storageUsable w = true -> slot w = Some s ->
  string_truthy s = false \/ jsonPresent w = false ->
  stopPageVisitTimer E w = (Ok JNull, w, []).
Proof.
  unfold slot. intros Hs Hslot Hwhy. apply try_catch_ok. unfold_manager. simpl.
  rewrite Hs, Hslot.
  destruct (string_truthy s); [ | reflexivity ].
  destruct Hwhy as [Hwhy | Hwhy]; [ discriminate | ].
  simpl. rewrite Hwhy. reflexivity.
Qed.

Lemma slot_cleared w : slot (cleared w) = None.
Proof. apply lookup_delete_eq. Qed.

Lemma slot_written s w : slot (written s w) = Some s.
Proof. apply lookup_insert_eq. Qed.

(** The ways the [try] block of [stop] ends on a session; it raises only
    past the [hasJSON()] test. *)
Lemma stop_try_cases w :
  stopPageVisitTimer_try E w = (Ok JNull, w, [])
  \/ (jsonPresent w = true /\ exists e, stopPageVisitTimer_try E w = (Throw e, w, []))
  \/ exists s props0 props,
       slot w = Some s /\ string_truthy s = true
       /\ decode codec s = Ok (JObj props0)
       /\ storageUsable w = true /\ jsonPresent w = true
       /\ stopPageVisitTimer_try E w = (Ok (JObj props), cleared w, []).
Proof.
  unfold slot. unfold_manager. simpl.
  destruct (storageUsable w); [ | left; reflexivity ].
  destruct (sessionStorage w !! prevPageVisitDataKeyName) as [s|];
    [ | left; reflexivity ].
  destruct (string_truthy s) eqn:Htruthy; [ | left; reflexivity ].
  simpl. destruct (jsonPresent w) eqn:Hj; [ | left; reflexivity ].
  simpl. rewrite Hj. simpl.
  destruct (decode codec s) as [v|e] eqn:Hdec;
    [ | right; left; split; [ reflexivity | eexists; reflexivity ] ].
  simpl. destruct (get_prop v "pageVisitStartTime") as [st|e];
    [ | right; left; split; [ reflexivity | eexists; reflexivity ] ].
  simpl. destruct (minus coerce (clock w) st) as [d|e];
    [ | right; left; split; [ reflexivity | eexists; reflexivity ] ].
  simpl. destruct v; simpl;
    try (right; left; split; [ reflexivity | eexists; reflexivity ]).
  right. right. eexists s, props, _. repeat split; try reflexivity; assumption.
Qed.

(** The two ways [stop] ends on a session: [null] and nothing changed, or
    an object parsed from a non-empty text, with the slot cleared. *)
Lemma stop_cases w :
  (worldOf (stopPageVisitTimer E w) = w /\ resultOf (stopPageVisitTimer E w) = Ok JNull)
  \/ exists s props0 props,
       slot w = Some s /\ string_truthy s = true
       /\ decode codec s = Ok (JObj props0)
       /\ storageUsable w = true /\ jsonPresent w = true
       /\ stopPageVisitTimer E w = (Ok (JObj props), cleared w, []).
Proof.
  unfold stopPageVisitTimer.
  destruct (stop_try_cases w)
    as [H | [(Hj & e & H) | (s & props0 & props & Hslot & Ht & Hdec & Hs & Hj & H)]].
  - left. rewrite (try_catch_ok _ _ _ _ _ _ H). split; reflexivity.
  - left. rewrite (try_catch_throw _ _ _ _ _ _ H).
    unfold bind. rewrite session_logFailure, Hj. split; reflexivity.
  - right. exists s, props0, props.
    rewrite (try_catch_ok _ _ _ _ _ _ H). repeat split; assumption.
Qed.

(** What [stop] does to the session: nothing, or it clears the slot;
    and it clears the slot whenever it answers a record. *)
Lemma stop_world w :
  (worldOf (stopPageVisitTimer E w) = w /\ resultOf (stopPageVisitTimer E w) = Ok JNull)
  \/ worldOf (stopPageVisitTimer E w) = cleared w.
Proof.
  destruct (stop_cases w) as [H | (s & props0 & props & _ & _ & _ & _ & _ & H)].
  - left. exact H.
  - right. rewrite H. reflexivity.
Qed.

(** When [stop] answers an object it has run to the end of its [try]
    block: storage and JSON were there, nothing was logged, the slot is
    cleared. *)
Lemma stop_object w props :
  resultOf (stopPageVisitTimer E w) = Ok (JObj props) ->
  stopPageVisitTimer E w = (Ok (JObj props), cleared w, [])
  /\ storageUsable w = true /\ jsonPresent w = true.
Proof.
  intros Hres.
  destruct (stop_cases w) as [[_ Hnull] | (s & props0 & props' & _ & _ & _ & Hs & Hj & H)].
  - rewrite Hnull in Hres. discriminate.
  - rewrite H in Hres. injection Hres as ->. repeat split; assumption.
Qed.

(** [stop] on a session always returns. *)
Lemma stop_returns w :
  exists v w' t, stopPageVisitTimer E w = (Ok v, w', t).
Proof.
  destruct (stop_cases w) as [[_ Hnull] | (s & props0 & props & _ & _ & _ & _ & _ & H)].
  - destruct (stopPageVisitTimer E w) as [[r w'] t]. cbn [resultOf fst] in Hnull.
    subst r. eauto.
  - eauto.
Qed.

(** What [start] does to the session: nothing, or it writes a fresh
    record into the empty slot. *)
Lemma start_world n u w :
  worldOf (startPageVisitTimer E n u w) = w
  \/ exists s, storageUsable w = true /\ jsonPresent w = true /\ slot w = None
               /\ encode codec (PageVisitData.make n u (clock w)) = Ok s
               /\ worldOf (startPageVisitTimer E n u w) = written s w.
Proof.
  unfold startPageVisitTimer.
  destruct (start_try_cases n u w)
    as [(s & Hs & Hslot & Hj & Henc & H) | [[_ H] | (_ & _ & e & H)]].
  - right. exists s. rewrite (try_catch_ok _ _ _ _ _ _ H). repeat split; assumption.
  - left. rewrite (try_catch_ok _ _ _ _ _ _ H). reflexivity.
  - left. rewrite (try_catch_throw _ _ _ _ _ _ H). cbn [worldOf fst snd].
    apply logFailure_world.
Qed.

(** [restart] on a session: where its [start] returns, it is [stop]
    then [start] with the answer of [stop]; where its [start] raises
    (without JSON), [restart] raises too.  The session it leaves is the
    one [start] leaves after [stop] in both cases. *)
Lemma restart_session n u w :
  worldOf (restartPageVisitTimer E n u w)
  = worldOf (startPageVisitTimer E n u (worldOf (stopPageVisitTimer E w)))
  /\ (resultOf (restartPageVisitTimer E n u w) = resultOf (stopPageVisitTimer E w)
      \/ exists e, resultOf (restartPageVisitTimer E n u w) = Throw e).
Proof.
  destruct (stop_returns w) as (prev & w1 & t1 & Hstop).
  rewrite Hstop. cbn [worldOf resultOf fst snd].
  destruct (start_outcome n u w1) as [(w2 & t2 & Hstart) | [Hj Hstart]].
  - rewrite (restart_when_returns E n u w prev w1 t1 w2 t2 Hstop Hstart), Hstart.
    split; [ reflexivity | left; reflexivity ].
  - rewrite Hstart. unfold restartPageVisitTimer.
    assert (Hbody : restartPageVisitTimer_try E n u w
                    = (Throw RangeErrorObj, w1, (t1 ++ [])%list)).
    { unfold restartPageVisitTimer_try.
      rewrite (bind_ok _ _ _ _ _ _ Hstop). unfold bind. rewrite Hstart. reflexivity. }
    rewrite (try_catch_throw _ _ _ _ _ _ Hbody).
    unfold bind. rewrite session_logFailure, Hj.
    split; [ reflexivity | right; eexists; reflexivity ].
Qed.

Lemma restart_world n u w :
  worldOf (restartPageVisitTimer E n u w)
  = worldOf (startPageVisitTimer E n u (worldOf (stopPageVisitTimer E w))).
Proof. apply restart_session. Qed.

(** With JSON present [restart] is [stop] then [start]. *)
Lemma restart_with_json n u w :
  jsonPresent w = true ->
  restartPageVisitTimer E n u w = restart_spec E n u w.
Proof.
  intros Hj. unfold restart_spec.
  destruct (stop_returns w) as (prev & w1 & t1 & Hstop).
  assert (Hj1 : jsonPresent w1 = true).
  { destruct (stop_world w) as [[Hw _] | Hw]; rewrite Hstop in Hw;
      cbn [worldOf fst snd] in Hw; subst w1; exact Hj. }
  destruct (start_outcome n u w1) as [(w2 & t2 & Hstart) | [Hj' _]];
    [ | rewrite Hj1 in Hj'; discriminate ].
  rewrite (restart_when_returns E n u w prev w1 t1 w2 t2 Hstop Hstart).
  rewrite Hstop; cbn [resultOf worldOf traceOf fst snd].
  rewrite Hstart; reflexivity.
Qed.

Lemma restart_result n u w :
  jsonPresent w = true ->
  resultOf (restartPageVisitTimer E n u w) = resultOf (stopPageVisitTimer E w).
Proof. intros Hj. rewrite (restart_with_json n u w Hj). reflexivity. Qed.

(** What [restart] answers on a session never makes [track] report
    unless [stop] answered it. *)
Lemma restart_reportsFor n u w :
  resultOf (stopPageVisitTimer E w) = Ok JNull ->
  reportsFor (resultOf (restartPageVisitTimer E n u w)) = [].
Proof.
  intros Hnull. destruct (restart_session n u w) as [_ [H | [e H]]]; rewrite H.
  - rewrite Hnull. reflexivity.
  - reflexivity.
Qed.

Lemma track_world n u w :
  worldOf (trackPreviousPageVisit E n u w) = worldOf (restartPageVisitTimer E n u w).
Proof.
  unfold trackPreviousPageVisit, trackPreviousPageVisit_try, try_catch, bind.
  destruct (restartPageVisitTimer E n u w) as [[[prev|e] w1] t1];
    [ | pose proof (logFailure_world
           "Auto track page visit time failed, metric will not be collected: " e w1) as H;
        destruct (logFailure E _ e w1) as [[r w2] t2]; exact H ].
  destruct (truthy prev); [ | reflexivity ].
  unfold lift.
  assert (Hcatch : forall e t,
    worldOf (match logFailure E
                "Auto track page visit time failed, metric will not be collected: " e w1
             with (r, w2, t2) => (r, w2, (t ++ t2)%list) end) = w1).
  { intros e t.
    pose proof (logFailure_world
      "Auto track page visit time failed, metric will not be collected: " e w1) as H.
    destruct (logFailure E _ e w1) as [[r w2] t2]. exact H. }
  destruct (get_prop prev "pageName") as [a|e]; [ | apply Hcatch ].
  destruct (get_prop prev "pageUrl") as [b|e]; [ | apply Hcatch ].
  destruct (get_prop prev "pageVisitTime") as [c|e]; [ | apply Hcatch ].
  unfold invokeHandler, call_traced; simpl.
  destruct (handler a b c w1) as [[]|e]; [ reflexivity | apply Hcatch ].
Qed.

(** Every action keeps the slot unfinalized. *)
Lemma start_preserves n u w :
  slotUnfinalized codec w ->
  slotUnfinalized codec (worldOf (startPageVisitTimer E n u w)).
Proof.
  intros Hinv. destruct (start_world n u w) as [-> | (s & _ & _ & _ & Henc & ->)].
  - exact Hinv.
  - unfold slotUnfinalized. rewrite slot_written. eauto.
Qed.

Lemma stop_preserves w :
  slotUnfinalized codec w ->
  slotUnfinalized codec (worldOf (stopPageVisitTimer E w)).
Proof.
  intros Hinv. destruct (stop_world w) as [[-> _] | ->].
  - exact Hinv.
  - unfold slotUnfinalized. rewrite slot_cleared. exact I.
Qed.

Lemma perform_preserves a w :
  slotUnfinalized codec w ->
  slotUnfinalized codec (perform codec coerce dump handler a w).
Proof.
  intros Hinv. destruct a as [n u| |n u|n u|dt|b|b]; simpl.
  - apply start_preserves, Hinv.
  - apply stop_preserves, Hinv.
  - rewrite restart_world. apply start_preserves, stop_preserves, Hinv.
  - rewrite track_world, restart_world. apply start_preserves, stop_preserves, Hinv.
  - exact Hinv.
  - exact Hinv.
  - exact Hinv.
Qed.

Lemma performAll_preserves acts w :
  slotUnfinalized codec w ->
  slotUnfinalized codec (performAll codec coerce dump handler acts w).
Proof.
  revert w. induction acts as [|a acts IH]; intros w Hinv; simpl.
  - exact Hinv.
  - apply IH, perform_preserves, Hinv.
Qed.

End SessionFacts.

(** ** The serialization facility reads back the records it prints *)

Module MiniJSONFacts.
Import MiniJSON.
#[local] Arguments String.append !s1 s2.

Lemma readString_escape x rest :
  readString (escape x ++ String dquote rest) = Some (x, rest).
Proof.
  induction x as [|c x IH]; simpl.
  - reflexivity.
  - destruct (Ascii.eqb c dquote) eqn:Hq; simpl.
    + rewrite Hq. simpl. rewrite IH. reflexivity.
    + destruct (Ascii.eqb c bslash) eqn:Hb; simpl.
      * rewrite Hq, Hb. simpl. rewrite IH. reflexivity.
      * rewrite Hq, Hb, IH. reflexivity.
Qed.

Lemma append_assoc (a b c : string) : (a ++ b) ++ c = a ++ (b ++ c).
Proof. induction a as [|x a IH]; simpl; [ reflexivity | rewrite IH; reflexivity ]. Qed.

Lemma quote_app x rest :
  quote x ++ rest = String dquote (escape x ++ String dquote rest).
Proof.
  change (quote x ++ rest)
    with (String dquote ((escape x ++ String dquote EmptyString) ++ rest)).
  rewrite append_assoc. reflexivity.
Qed.

Lemma spanNumber_app a c rest :
  allNumberChars a = true -> isNumberChar c = false ->
  spanNumber (a ++ String c rest) = (a, String c rest).
Proof.
  intros Ha Hc. induction a as [|d a IH]; simpl in *.
  - rewrite Hc. reflexivity.
  - apply andb_prop in Ha as [Hd Ha]. rewrite Hd, (IH Ha). reflexivity.
Qed.

Lemma uint_chars d : allNumberChars (NilEmpty.string_of_uint d) = true.
Proof. induction d; simpl; auto. Qed.

Lemma printNumber_chars n : allNumberChars (printNumber n) = true.
Proof.
  unfold printNumber, NilZero.string_of_int, NilZero.string_of_uint.
  destruct (Z.to_int n) as [d|d]; destruct d; simpl; try reflexivity;
    apply uint_chars.
Qed.

Lemma printNumber_parses n :
  NilZero.int_of_string (printNumber n) = Some (Z.to_int n).
Proof.
  unfold printNumber. apply NilZero.isi.
  - destruct n as [|p|p]; simpl; try discriminate.
    intros [= H]. exact (DecimalPos.Unsigned.to_uint_nonnil p H).
  - destruct n as [|p|p]; simpl; try discriminate.
    intros [= H]. exact (DecimalPos.Unsigned.to_uint_nonnil p H).
Qed.

Lemma numberChar_not_keyword c :
  isNumberChar c = true ->
  Ascii.eqb c dquote = false /\ Ascii.eqb "n" c = false
  /\ Ascii.eqb "t" c = false /\ Ascii.eqb "f" c = false.
Proof.
  destruct c as [[] [] [] [] [] [] [] []]; intros H;
    try discriminate H; repeat split.
Qed.

Lemma readPrimitive_number n c rest :
  isNumberChar c = false ->
  readPrimitive (printNumber n ++ String c rest) = Some (JNum n, String c rest).
Proof.
  intros Hc.
  pose proof (printNumber_chars n) as Hall.
  pose proof (printNumber_parses n) as Hparse.
  pose proof (spanNumber_app (printNumber n) c rest Hall Hc) as Hspan.
  destruct (printNumber n) as [|c0 r0] eqn:Hp; [ discriminate Hparse | ].
  simpl in Hall. apply andb_prop in Hall as [H0 _].
  destruct (numberChar_not_keyword c0 H0) as (Hq & Hn & Ht & Hf).
  unfold readPrimitive.
  change (String c0 r0 ++ String c rest) with (String c0 (r0 ++ String c rest)) in *.
  cbv beta iota. rewrite Hq. cbn [stripPrefix]. rewrite Hn, Ht, Hf, Hspan, Hparse.
  rewrite DecimalZ.of_to. reflexivity.
Qed.

Lemma readPrimitive_string x rest :
  readPrimitive (quote x ++ rest) = Some (JStr x, rest).
Proof.
  rewrite quote_app. unfold readPrimitive.
  rewrite Ascii.eqb_refl, readString_escape. reflexivity.
Qed.

Lemma readPrimitive_printable v pv c rest :
  printable v pv -> isNumberChar c = false ->
  readPrimitive (pv ++ String c rest) = Some (v, String c rest).
Proof.
  intros [(n & -> & ->) | (x & -> & ->)] Hc.
  - apply readPrimitive_number, Hc.
  - apply readPrimitive_string.
Qed.

Lemma readMembers_more fuel k v pv rest :
  printable v pv ->
  readMembers (S fuel) (quote k ++ ":" ++ pv ++ String "," rest)
  = match readMembers fuel rest with
    | Some (more, rest') => Some ((k, v) :: more, rest')
    | None => None
    end.
Proof.
  intros Hv. rewrite quote_app. cbn [readMembers].
  rewrite Ascii.eqb_refl, readString_escape.
  change (":" ++ pv ++ String "," rest) with (String ":" (pv ++ String "," rest)).
  cbv beta iota. rewrite Ascii.eqb_refl.
  rewrite (readPrimitive_printable v pv "," rest Hv eq_refl).
  reflexivity.
Qed.

Lemma readMembers_last fuel k v pv rest :
  printable v pv ->
  readMembers (S fuel) (quote k ++ ":" ++ pv ++ String "}" rest)
  = Some ([(k, v)], rest).
Proof.
  intros Hv. rewrite quote_app. cbn [readMembers].
  rewrite Ascii.eqb_refl, readString_escape.
  change (":" ++ pv ++ String "}" rest) with (String ":" (pv ++ String "}" rest)).
  cbv beta iota. rewrite Ascii.eqb_refl.
  rewrite (readPrimitive_printable v pv "}" rest Hv eq_refl).
  reflexivity.
Qed.

Lemma print_record n u t :
  print (PageVisitData.make n u t)
  = Ok (String "{"
          (quote "pageVisitStartTime" ++ ":" ++ printNumber t ++ String ","
             (quote "pageName" ++ ":" ++ quote n ++ String ","
                (quote "pageUrl" ++ ":" ++ quote u ++ String "}" EmptyString)))).
Proof.
  unfold print, PageVisitData.make, printMembers, printPrimitive.
  f_equal. 
  change ("{" ++ ?x) with (String "{" x). f_equal.
  rewrite !append_assoc. simpl. reflexivity.
Qed.

Lemma length_append (a b : string) :
  String.length (a ++ b) = (String.length a + String.length b)%nat.
Proof. induction a as [|x a IH]; simpl; [ reflexivity | rewrite IH; reflexivity ]. Qed.

Lemma printable_number n : printable (JNum n) (printNumber n).
Proof. left. eauto. Qed.

Lemma printable_string x : printable (JStr x) (quote x).
Proof. right. eauto. Qed.

Lemma read_print_record n u t :
  exists s, print (PageVisitData.make n u t) = Ok s
            /\ string_truthy s = true
            /\ read s = Ok (PageVisitData.make n u t).
Proof.
  eexists. split; [ apply print_record | ]. split; [ reflexivity | ].
  unfold read. cbv beta iota. rewrite Ascii.eqb_refl.
  match goal with
  | |- context [readMembers (String.length ?s) _] =>
      assert (exists f, String.length s = S (S (S f))) as [f ->]
  end.
  { cbn [String.length]. rewrite !length_append. cbn [String.length].
    unfold quote. cbn [String.length]. rewrite !length_append.
    eexists. rewrite <- !Nat.add_succ_comm. cbn [Nat.add]. reflexivity. }
  rewrite (quote_app "pageVisitStartTime") at 1. cbv beta iota.
  change (Ascii.eqb dquote "}") with false. cbv beta iota.
  rewrite (readMembers_more _ _ _ _ _ (printable_number t)).
  rewrite (readMembers_more _ _ _ _ _ (printable_string n)).
  rewrite (readMembers_last _ _ _ _ _ (printable_string u)).
  reflexivity.
Qed.

End MiniJSONFacts.

(** ** Running the manager *)

(** [restart] on an idle session returns [null] and leaves the session
    timing the new page. *)
Example restart_on_idle :
  resultOf (restartPageVisitTimer demoEnv "A" "/a" idleWorld) = Ok JNull
  /\ Ok (slot (worldOf (restartPageVisitTimer demoEnv "A" "/a" idleWorld)))
     = match MiniJSON.print (PageVisitData.make "A" "/a" 1000) with
       | Ok s => Ok (Some s)
       | Throw e => Throw e
       end.
Proof. vm_compute. split; reflexivity. Qed.

(** [start("p1", "u1")], five milliseconds, [trackPreviousPageVisit("p2",
    "u2")]: one report, for the first page; seven milliseconds later
    [stop] answers the second page. *)
Example track_then_stop :
  traceOf (trackPreviousPageVisit demoEnv "p2" "u2" timingWorld)
  = [Reported (JStr "p1") (JStr "u1") (JNum 5)]
  /\ resultOf (stopPageVisitTimer demoEnv
                 (elapse 7 (worldOf (trackPreviousPageVisit demoEnv "p2" "u2" timingWorld))))
     = Ok (finalized "p2" "u2" 1005 1012).
Proof. vm_compute. split; reflexivity. Qed.

(** A slot that holds the text [null]: the property read raises inside
    [stop], which logs, answers [null] and leaves the slot. *)
Example stop_on_null_text :
  stopPageVisitTimer demoEnv (written "null" idleWorld)
  = (Ok JNull, written "null" idleWorld,
     [Warned ("Stop page visit timer failed: " ++ describe TypeErrorObj)]).
Proof. vm_compute. reflexivity. Qed.

(** * The stated properties *)

(** C1. For every call [trackPreviousPageVisit(name, url)], whatever the
    capabilities do: if the inner [restartPageVisitTimer] returns a record
    (an object, not [null]), the reporting handler is called exactly once,
    with the [pageName], [pageUrl] and [pageVisitTime] of that returned
    record; if it returns [null] (or raises), the handler is not called.
    [restartPageVisitTimer] itself never calls the handler and returns
    nothing but [null] or an object. *)
Theorem track_reports_previous_record_once
  {W : Type} (env : Env W) (name url : string) (w : W) :
  let restarted := restartPageVisitTimer env name url w in
  let tracked := trackPreviousPageVisit env name url w in
  reports (traceOf restarted) = []
  /\ match resultOf restarted with
     | Ok JNull => reports (traceOf tracked) = []
     | Ok prev =>
         exists props,
           prev = JObj props
           /\ reports (traceOf tracked)
              = [(lookup_prop props "pageName",
                  lookup_prop props "pageUrl",
                  lookup_prop props "pageVisitTime")]
     | Throw _ => reports (traceOf tracked) = []
     end.
Proof.
  cbv zeta. split; [ apply silent_restart | ].
  rewrite track_reports.
  pose proof (restart_yields env name url w) as Hshape.
  destruct (resultOf (restartPageVisitTimer env name url w)) as [prev|e];
    [ | reflexivity ].
  destruct (Hshape prev eq_refl) as [-> | (props & -> & _)]; [ reflexivity | ].
  exists props. split; reflexivity.
Qed.







(** C6. When [utlCanUseSessionStorage()] answers [false], whatever the
    other capabilities would do: [start] returns without a warning and
    leaves the world as it is, [stop] and [restart] return [null] and
    leave the world as it is, and [trackPreviousPageVisit] returns with
    the world as it is and without calling the reporting handler. *)
Theorem unavailable_storage_is_noop
  {W : Type} (env : Env W) (name url : string) (w : W) :
  utlCanUseSessionStorage env w = (Ok false, w) ->
  startPageVisitTimer env name url w = (Ok tt, w, [])
  /\ stopPageVisitTimer env w = (Ok JNull, w, [])
  /\ restartPageVisitTimer env name url w = (Ok JNull, w, [])
  /\ trackPreviousPageVisit env name url w = (Ok tt, w, [])
  /\ reports (traceOf (trackPreviousPageVisit env name url w)) = [].
Proof.
  intros H.
  pose proof (unavailable_track env name url w H) as Ht.
  repeat split.
  - apply unavailable_start, H.
  - apply unavailable_stop, H.
  - apply unavailable_restart, H.
  - exact Ht.
  - rewrite Ht. reflexivity.
Qed.

Lemma unavailable_storage_is_noop_witness :
  stopPageVisitTimer demoEnv (setStorageUsable false timingWorld)
  = (Ok JNull, setStorageUsable false timingWorld, [])
  /\ trackPreviousPageVisit demoEnv "p2" "u2" (setStorageUsable false timingWorld)
     = (Ok tt, setStorageUsable false timingWorld, []).
Proof.
  pose proof (unavailable_storage_is_noop demoEnv "p2" "u2"
                (setStorageUsable false timingWorld) eq_refl) as H.
  split; apply H.
Defined.

Section SessionClaims.
Variable codec : Codec.
Variable coerce : JsVal -> Res JsVal.
Variable dump : Exn -> string.
Variable handler : JsVal -> JsVal -> JsVal -> World -> Res unit.

Local Notation "'E'" := (sessionEnv codec coerce dump handler).

Lemma roundTrip_text n u t s :
  recordsRoundTrip codec ->
  encode codec (PageVisitData.make n u t) = Ok s ->
  string_truthy s = true /\ decode codec s = Ok (PageVisitData.make n u t).
Proof.
  intros Hrt Henc. destruct (Hrt n u t) as (s' & Henc' & Htruthy & Hdec).
  rewrite Henc in Henc'. injection Henc' as <-. split; assumption.
Qed.

Lemma stop_started n u t0 s w :
  recordsRoundTrip codec ->
  storageUsable w = true -> jsonPresent w = true ->
  slot w = Some s -> encode codec (PageVisitData.make n u t0) = Ok s ->
  stopPageVisitTimer E w = (Ok (finalized n u t0 (clock w)), cleared w, []).
Proof.
  intros Hrt Hs Hj Hslot Henc.
  destruct (roundTrip_text n u t0 s Hrt Henc) as [Htruthy Hdec].
  eapply stop_record; eassumption.
Qed.



(** C4. With storage available and the slot occupied,
    [start(name, url)] raises the consecutive-start error inside its
    [try] block and leaves the session as it was, the slot included.
    With JSON present the error is caught and logged as one warning,
    nothing propagates, and a following [stop] answers what it would have
    answered, the originally started record.  Without JSON, [dumpObj]
    raises in the [catch] block and that RangeError leaves [start],
    nothing logged. *)
Theorem consecutive_start_is_swallowed name url s w :
  storageUsable w = true -> slot w = Some s ->
  startPageVisitTimer_try E name url w
  = (Throw (ErrorObj consecutiveStartMessage), w, [])
  /\ worldOf (startPageVisitTimer E name url w) = w
  /\ slot (worldOf (startPageVisitTimer E name url w)) = Some s
  /\ stopPageVisitTimer E (worldOf (startPageVisitTimer E name url w))
     = stopPageVisitTimer E w
  /\ (jsonPresent w = true ->
      startPageVisitTimer E name url w
      = (Ok tt, w,
         [Warned ("Call to start failed: " ++ dump (ErrorObj consecutiveStartMessage))])
      /\ (forall name0 url0 t0,
            recordsRoundTrip codec ->
            encode codec (PageVisitData.make name0 url0 t0) = Ok s ->
            resultOf (stopPageVisitTimer E (worldOf (startPageVisitTimer E name url w)))
            = Ok (finalized name0 url0 t0 (clock w))))
  /\ (jsonPresent w = false ->
      startPageVisitTimer E name url w = (Throw RangeErrorObj, w, [])).
Proof.
  intros Hs Hslot.
  assert (Hworld : worldOf (startPageVisitTimer E name url w) = w).
  { destruct (jsonPresent w) eqn:Hj.
    - rewrite (start_busy codec coerce dump handler name url w s Hs Hj Hslot). reflexivity.
    - rewrite (start_busy_without_json codec coerce dump handler name url w s Hs Hj Hslot).
      reflexivity. }
  split; [ eapply start_busy_try; eassumption | ].
  split; [ exact Hworld | ]. rewrite Hworld.
  split; [ exact Hslot | ]. split; [ reflexivity | ]. split.
  - intros Hj.
    split; [ apply (start_busy codec coerce dump handler name url w s); assumption | ].
    intros name0 url0 t0 Hrt Henc.
    rewrite (stop_started name0 url0 t0 s w Hrt Hs Hj Hslot Henc). reflexivity.
  - intros Hj.
    apply (start_busy_without_json codec coerce dump handler name url w s); assumption.
Qed.

(** C7. [stop] on an idle session (empty slot) returns [null], without
    a warning and without touching the session; and once a [stop] has
    returned a record, the slot is empty and the next [stop] returns
    [null]. *)
Theorem stop_twice_returns_null w :
  (slot w = None -> stopPageVisitTimer E w = (Ok JNull, w, []))
  /\ (forall props,
        resultOf (stopPageVisitTimer E w) = Ok (JObj props) ->
        slot (worldOf (stopPageVisitTimer E w)) = None
        /\ stopPageVisitTimer E (worldOf (stopPageVisitTimer E w))
           = (Ok JNull, worldOf (stopPageVisitTimer E w), [])).
Proof.
  split; [ apply stop_idle | ].
  intros props Hres.
  assert (Hempty : slot (worldOf (stopPageVisitTimer E w)) = None).
  { destruct (stop_world codec coerce dump handler w) as [[_ Hnull] | ->].
    - rewrite Hnull in Hres. discriminate.
    - apply slot_cleared. }
  split; [ exact Hempty | ]. apply stop_idle, Hempty.
Qed.

(** C9. With storage available and a value in the slot, when the
    stored string is empty or the JSON facility is absent, [stop]
    returns [null] and leaves the slot entry in place. *)
Theorem stop_leaves_unreadable_slot s w :
  storageUsable w = true -> slot w = Some s ->
  s = EmptyString \/ jsonPresent w = false ->
  stopPageVisitTimer E w = (Ok JNull, w, [])
  /\ slot (worldOf (stopPageVisitTimer E w)) = Some s.
Proof.
  intros Hs Hslot Hwhy.
  assert (H : stopPageVisitTimer E w = (Ok JNull, w, [])).
  { eapply stop_left_in_place; [ exact Hs | exact Hslot | ].
    destruct Hwhy as [-> | Hj]; [ left; reflexivity | right; exact Hj ]. }
  split; [ exact H | ]. rewrite H. exact Hslot.
Qed.

Lemma restart_object n u props s' w :
  resultOf (restartPageVisitTimer E n u w) = Ok (JObj props) ->
  encode codec (PageVisitData.make n u (clock w)) = Ok s' ->
  restartPageVisitTimer E n u w = (Ok (JObj props), written s' (cleared w), []).
Proof.
  intros Hres Henc.
  assert (Hstopped : resultOf (stopPageVisitTimer E w) = Ok (JObj props)).
  { destruct (restart_session codec coerce dump handler n u w) as [_ [H | [e H]]];
      rewrite H in Hres; [ exact Hres | discriminate ]. }
  destruct (stop_object codec coerce dump handler w props Hstopped) as (Hstop & Hs & Hj).
  apply (restart_when_returns E n u w (JObj props) (cleared w) []
           (written s' (cleared w)) [] Hstop).
  apply (start_idle codec coerce dump handler n u (cleared w) s' Hs Hj
           (slot_cleared w) Henc).
Qed.

(** C10. On the in-memory session, when [restartPageVisitTimer] has
    answered a previous record and the new record serializes: if the
    reporting handler raises during [trackPreviousPageVisit(name, url)],
    the call still returns, the handler has been called once with the
    previous record, the failure is logged as one warning, and the slot
    holds the record of the newly started page, which [restart] wrote
    before the handler ran. *)
Theorem handler_failure_keeps_new_record name url props s' e w :
  resultOf (restartPageVisitTimer E name url w) = Ok (JObj props) ->
  encode codec (PageVisitData.make name url (clock w)) = Ok s' ->
  (forall w', handler (lookup_prop props "pageName") (lookup_prop props "pageUrl")
                (lookup_prop props "pageVisitTime") w' = Throw e) ->
  trackPreviousPageVisit E name url w
  = (Ok tt, written s' (cleared w),
     [Reported (lookup_prop props "pageName") (lookup_prop props "pageUrl")
        (lookup_prop props "pageVisitTime");
      Warned ("Auto track page visit time failed, metric will not be collected: "
                ++ dump e)])
  /\ slot (worldOf (restartPageVisitTimer E name url w)) = Some s'
  /\ slot (worldOf (trackPreviousPageVisit E name url w)) = Some s'.
Proof.
  intros Hres Henc Hfail.
  pose proof (restart_object name url props s' w Hres Henc) as Hrestart.
  assert (Htrack : trackPreviousPageVisit E name url w
       = (Ok tt, written s' (cleared w),
          [Reported (lookup_prop props "pageName") (lookup_prop props "pageUrl")
             (lookup_prop props "pageVisitTime");
           Warned ("Auto track page visit time failed, metric will not be collected: "
                     ++ dump e)])).
  { assert (Hj : jsonPresent w = true).
    { destruct (restart_session codec coerce dump handler name url w) as [_ [H | [e' H]]];
        rewrite H in Hres; [ | discriminate ].
      apply (stop_object codec coerce dump handler w props Hres). }
    unfold trackPreviousPageVisit, trackPreviousPageVisit_try, try_catch, bind.
    rewrite Hrestart. unfold lift, invokeHandler, call_traced; simpl.
    rewrite Hfail, session_logFailure. simpl. rewrite Hj. reflexivity. }
  split; [ exact Htrack | ].
  rewrite Htrack, Hrestart. split; apply slot_written.
Qed.

(** C8. Starting from a session whose slot is empty or holds a fresh
    record, after any sequence of calls to the manager (and of time
    passing or capabilities coming and going), whatever the slot holds
    is the serialization of a record as the constructor built it, and
    read back it has no [pageVisitTime].  The constructor never assigns
    that field; a record that [stop] returns always carries it. *)
Theorem unfinalized_record_has_no_duration acts w0 s :
  recordsRoundTrip codec -> slotUnfinalized codec w0 ->
  slot (performAll codec coerce dump handler acts w0) = Some s ->
  (exists name url t,
      encode codec (PageVisitData.make name url t) = Ok s
      /\ decode codec s = Ok (PageVisitData.make name url t)
      /\ get_prop (PageVisitData.make name url t) "pageVisitTime" = Ok JUndefined)
  /\ (forall name url t,
        get_prop (PageVisitData.make name url t) "pageVisitTime" = Ok JUndefined)
  /\ (forall w props,
        resultOf (stopPageVisitTimer E w) = Ok (JObj props) ->
        isNumber (lookup_prop props "pageVisitTime")).
Proof.
  intros Hrt Hinv Hslot. split; [ | split ].
  - pose proof (performAll_preserves codec coerce dump handler acts w0 Hinv) as H.
    unfold slotUnfinalized in H. rewrite Hslot in H.
    destruct H as (name & url & t & Henc).
    exists name, url, t. split; [ exact Henc | ]. split; [ | reflexivity ].
    apply (roundTrip_text name url t s Hrt Henc).
  - reflexivity.
  - intros w props Hres.
    destruct (stop_yields E w (JObj props) Hres) as [Hnull | (props' & Heq & Hnum)].
    + discriminate.
    + injection Heq as <-. exact Hnum.
Qed.

End SessionClaims.

Lemma miniJSON_roundTrip : recordsRoundTrip MiniJSON.codec.
Proof. intros n u t. apply MiniJSONFacts.read_print_record. Qed.


Lemma consecutive_start_is_swallowed_witness :
  startPageVisitTimer demoEnv "p2" "u2" timingWorld
  = (Ok tt, timingWorld,
     [Warned ("Call to start failed: " ++ describe (ErrorObj consecutiveStartMessage))])
  /\ resultOf (stopPageVisitTimer demoEnv
                 (worldOf (startPageVisitTimer demoEnv "p2" "u2" timingWorld)))
     = Ok (finalized "p1" "u1" 1000 1005).
Proof.
  destruct (consecutive_start_is_swallowed MiniJSON.codec noCoercion describe quietHandler
              "p2" "u2" timingText timingWorld
              ltac:(vm_compute; reflexivity) ltac:(vm_compute; reflexivity))
    as (_ & _ & _ & _ & Hjson & _).
  destruct (Hjson ltac:(vm_compute; reflexivity)) as [H H0].
  split; [ exact H | ].
  apply (H0 "p1" "u1" 1000 miniJSON_roundTrip); vm_compute; reflexivity.
Defined.

(** On a timing session without JSON the consecutive-start error is not
    swallowed: [start] raises. *)
Lemma consecutive_start_can_throw :
  storageUsable (setJsonPresent false timingWorld) = true
  /\ slot (setJsonPresent false timingWorld) = Some timingText
  /\ startPageVisitTimer demoEnv "p2" "u2" (setJsonPresent false timingWorld)
     = (Throw RangeErrorObj, setJsonPresent false timingWorld, []).
Proof. vm_compute. repeat split. Qed.

Lemma stop_twice_returns_null_witness :
  stopPageVisitTimer demoEnv idleWorld = (Ok JNull, idleWorld, [])
  /\ stopPageVisitTimer demoEnv (worldOf (stopPageVisitTimer demoEnv timingWorld))
     = (Ok JNull, worldOf (stopPageVisitTimer demoEnv timingWorld), []).
Proof.
  split.
  - apply (stop_twice_returns_null MiniJSON.codec noCoercion describe quietHandler idleWorld).
    vm_compute; reflexivity.
  - eapply (stop_twice_returns_null MiniJSON.codec noCoercion describe quietHandler
              timingWorld).
    vm_compute; reflexivity.
Defined.

Lemma stop_leaves_unreadable_slot_witness :
  stopPageVisitTimer demoEnv (written EmptyString idleWorld)
  = (Ok JNull, written EmptyString idleWorld, [])
  /\ slot (worldOf (stopPageVisitTimer demoEnv (setJsonPresent false timingWorld)))
     = Some timingText.
Proof.
  split.
  - apply (stop_leaves_unreadable_slot MiniJSON.codec noCoercion describe quietHandler
             EmptyString (written EmptyString idleWorld));
      [ vm_compute; reflexivity | vm_compute; reflexivity | left; reflexivity ].
  - apply (stop_leaves_unreadable_slot MiniJSON.codec noCoercion describe quietHandler
             timingText (setJsonPresent false timingWorld));
      [ vm_compute; reflexivity | vm_compute; reflexivity | right; reflexivity ].
Defined.

Lemma handler_failure_keeps_new_record_witness :
  trackPreviousPageVisit failingEnv "p2" "u2" timingWorld
  = (Ok tt, written trackedText (cleared timingWorld),
     [Reported (JStr "p1") (JStr "u1") (JNum 5);
      Warned ("Auto track page visit time failed, metric will not be collected: "
                ++ describe (ErrorObj "handler failed"))])
  /\ slot (worldOf (trackPreviousPageVisit failingEnv "p2" "u2" timingWorld))
     = Some trackedText.
Proof.
  destruct (handler_failure_keeps_new_record MiniJSON.codec noCoercion describe
              failingHandler "p2" "u2"
              [("pageVisitStartTime", JNum 1000); ("pageName", JStr "p1");
               ("pageUrl", JStr "u1"); ("pageVisitTime", JNum 5)]
              trackedText (ErrorObj "handler failed") timingWorld
              ltac:(vm_compute; reflexivity) ltac:(vm_compute; reflexivity)
              ltac:(intros w'; reflexivity))
    as (H & _ & H0).
  split; [ exact H | exact H0 ].
Defined.

Lemma unfinalized_record_has_no_duration_witness :
  slot (performAll MiniJSON.codec noCoercion describe quietHandler demoActions idleWorld)
  = Some trackedText
  /\ exists name url t,
       MiniJSON.print (PageVisitData.make name url t) = Ok trackedText
       /\ MiniJSON.read trackedText = Ok (PageVisitData.make name url t)
       /\ get_prop (PageVisitData.make name url t) "pageVisitTime" = Ok JUndefined.
Proof.
  assert (Hslot : slot (performAll MiniJSON.codec noCoercion describe quietHandler
                          demoActions idleWorld) = Some trackedText).
  { vm_compute. reflexivity. }
  split; [ exact Hslot | ].
  apply (unfinalized_record_has_no_duration MiniJSON.codec noCoercion describe
           quietHandler demoActions idleWorld trackedText miniJSON_roundTrip I Hslot).
Defined.

(** The logger is part of the boundary: when it raises, the exception
    leaves [startPageVisitTimer]. *)
Example start_propagates_logger_failure :
  startPageVisitTimer raisingLoggerEnv "p2" "u2" timingWorld
  = (Throw (ErrorObj "logger failed"), timingWorld,
     [Warned ("Call to start failed: " ++ describe (ErrorObj consecutiveStartMessage))]).
Proof. vm_compute. reflexivity. Qed.

(** * Further properties of the manager *)

Lemma lookup_assign_other props k k' v :
  k <> k' -> lookup_prop (assign_prop props k v) k' = lookup_prop props k'.
Proof.
  intros Hne. induction props as [|[k0 v0] rest IH]; simpl.
  - destruct (String.eqb_spec k k'); [ contradiction | reflexivity ].
  - destruct (String.eqb_spec k0 k) as [-> | Hk0]; simpl.
    + destruct (String.eqb_spec k k'); [ contradiction | reflexivity ].
    + destruct (String.eqb_spec k0 k'); [ reflexivity | exact IH ].
Qed.

Section Traces.
Context {W : Type} (env : Env W).










End Traces.

Section SessionExtras.
Variable codec : Codec.
Variable coerce : JsVal -> Res JsVal.
Variable dump : Exn -> string.
Variable handler : JsVal -> JsVal -> JsVal -> World -> Res unit.

Local Notation "'E'" := (sessionEnv codec coerce dump handler).

Lemma stop_stuck w s :
  slot w = Some s -> unreadable codec s ->
  worldOf (stopPageVisitTimer E w) = w /\ resultOf (stopPageVisitTimer E w) = Ok JNull.
Proof.
  intros Hslot Hbad.
  destruct (stop_cases codec coerce dump handler w)
    as [H | (s' & props0 & props & Hslot' & Ht & Hdec & _)];
    [ exact H | ].
  rewrite Hslot in Hslot'. injection Hslot' as <-.
  destruct Hbad as [Hf | [[e He] | (v & Hv & Hobj)]].
  - rewrite Ht in Hf. discriminate.
  - rewrite Hdec in He. discriminate.
  - rewrite Hdec in Hv. injection Hv as <-. discriminate.
Qed.

Lemma stop_without_json w :
  jsonPresent w = false ->
  worldOf (stopPageVisitTimer E w) = w /\ resultOf (stopPageVisitTimer E w) = Ok JNull.
Proof.
  intros Hj.
  destruct (stop_cases codec coerce dump handler w)
    as [H | (s' & props0 & props & _ & _ & _ & _ & Hj' & _)];
    [ exact H | ].
  rewrite Hj in Hj'. discriminate.
Qed.

Lemma start_occupied n u w s :
  slot w = Some s -> worldOf (startPageVisitTimer E n u w) = w.
Proof.
  intros Hslot.
  destruct (start_world codec coerce dump handler n u w)
    as [H | (s' & _ & _ & Hnone & _)]; [ exact H | ].
  rewrite Hslot in Hnone. discriminate.
Qed.

Lemma start_without_json n u w :
  jsonPresent w = false -> worldOf (startPageVisitTimer E n u w) = w.
Proof.
  intros Hj.
  destruct (start_world codec coerce dump handler n u w)
    as [H | (s' & _ & Hj' & _)]; [ exact H | ].
  rewrite Hj in Hj'. discriminate.
Qed.

(** A call that leaves the session as it is and of which [stop] answers
    [null] reports nothing. *)
Lemma call_inert a w :
  isCall a = true ->
  worldOf (stopPageVisitTimer E w) = w ->
  resultOf (stopPageVisitTimer E w) = Ok JNull ->
  (forall n u, worldOf (startPageVisitTimer E n u w) = w) ->
  perform codec coerce dump handler a w = w
  /\ reports (emitted codec coerce dump handler a w) = [].
Proof.
  intros Hcall Hstop Hnull Hstart.
  destruct a as [n u| |n u|n u|dt|b|b]; try discriminate Hcall; simpl.
  - split; [ apply Hstart | apply silent_start ].
  - split; [ exact Hstop | apply silent_stop ].
  - split; [ | apply silent_restart ].
    rewrite restart_world, Hstop. apply Hstart.
  - split.
    + rewrite track_world, restart_world, Hstop. apply Hstart.
    + rewrite track_reports. apply restart_reportsFor, Hnull.
Qed.

(** X4. Once the slot holds a text that [stop] cannot finalize (empty,
    unparsable, or parsed to something that is not an object), the
    manager never recovers in that session: through any sequence of
    calls, clock advances and capability changes, the slot keeps that
    text and the reporting handler is never called. *)
Theorem unreadable_slot_is_permanent acts w s :
  slot w = Some s -> unreadable codec s ->
  slot (performAll codec coerce dump handler acts w) = Some s
  /\ reports (emittedAll codec coerce dump handler acts w) = [].
Proof.
  revert w. induction acts as [|a acts IH]; intros w Hslot Hbad.
  - split; [ exact Hslot | reflexivity ].
  - simpl. rewrite reports_app.
    assert (Hstep : slot (perform codec coerce dump handler a w) = Some s
                    /\ reports (emitted codec coerce dump handler a w) = []).
    { destruct (isCall a) eqn:Hcall.
      - destruct (stop_stuck w s Hslot Hbad) as [Hw Hnull].
        destruct (call_inert a w Hcall Hw Hnull
                    (fun n u => start_occupied n u w s Hslot)) as [-> Hrep].
        split; [ exact Hslot | exact Hrep ].
      - destruct a; try discriminate Hcall; split; try exact Hslot; reflexivity. }
    destruct Hstep as [Hslot' ->].
    destruct (IH _ Hslot' Hbad) as [Hfinal ->].
    split; [ exact Hfinal | reflexivity ].
Qed.

(** X5. Without the JSON facility the manager is inert: through any
    sequence of calls and clock advances, the session storage stays as it
    was (nothing is written, nothing removed) and the reporting handler
    is never called. *)
Theorem without_json_nothing_happens acts w :
  jsonPresent w = false ->
  forallb keepsCapabilities acts = true ->
  sessionStorage (performAll codec coerce dump handler acts w) = sessionStorage w
  /\ reports (emittedAll codec coerce dump handler acts w) = [].
Proof.
  revert w. induction acts as [|a acts IH]; intros w Hj Hkeep.
  - split; reflexivity.
  - simpl in Hkeep. apply andb_prop in Hkeep as [Ha Hkeep].
    simpl. rewrite reports_app.
    assert (Hstep : jsonPresent (perform codec coerce dump handler a w) = false
                    /\ sessionStorage (perform codec coerce dump handler a w)
                       = sessionStorage w
                    /\ reports (emitted codec coerce dump handler a w) = []).
    { destruct (isCall a) eqn:Hcall.
      - destruct (stop_without_json w Hj) as [Hw Hnull].
        destruct (call_inert a w Hcall Hw Hnull
                    (fun n u => start_without_json n u w Hj)) as [-> Hrep].
        repeat split; [ exact Hj | exact Hrep ].
      - destruct a; try discriminate Hcall; try discriminate Ha.
        repeat split. exact Hj. }
    destruct Hstep as (Hj' & Hsame & ->).
    destruct (IH _ Hj' Hkeep) as [Hfinal ->].
    split; [ rewrite Hfinal; exact Hsame | reflexivity ].
Qed.

Lemma restart_idle n u s w :
  storageUsable w = true -> jsonPresent w = true -> slot w = None ->
  encode codec (PageVisitData.make n u (clock w)) = Ok s ->
  restartPageVisitTimer E n u w = (Ok JNull, written s w, []).
Proof.
  intros Hs Hj Hslot Henc.
  rewrite (restart_with_json codec coerce dump handler n u w Hj).
  unfold restart_spec.
  rewrite (stop_idle codec coerce dump handler w Hslot).
  cbn [resultOf worldOf traceOf fst snd].
  rewrite (start_idle codec coerce dump handler n u w s Hs Hj Hslot Henc).
  reflexivity.
Qed.

Lemma restart_timing n u n0 u0 t0 s s' w :
  recordsRoundTrip codec ->
  storageUsable w = true -> jsonPresent w = true ->
  slot w = Some s -> encode codec (PageVisitData.make n0 u0 t0) = Ok s ->
  encode codec (PageVisitData.make n u (clock w)) = Ok s' ->
  restartPageVisitTimer E n u w
  = (Ok (finalized n0 u0 t0 (clock w)), written s' (cleared w), []).
Proof.
  intros Hrt Hs Hj Hslot Henc Henc'.
  apply (restart_object codec coerce dump handler); [ | exact Henc' ].
  rewrite (restart_result codec coerce dump handler n u w Hj).
  rewrite (stop_started codec coerce dump handler n0 u0 t0 s w Hrt Hs Hj Hslot Henc).
  reflexivity.
Qed.

(** X1. On an idle session with storage and JSON available,
    [restartPageVisitTimer(name, url)] returns [null] and
    [trackPreviousPageVisit(name, url)] reports nothing; both leave the
    session timing the new page (its record, begun now, in the slot) and
    log no warning. *)
Theorem first_page_is_timed_not_reported name url s w :
  storageUsable w = true -> jsonPresent w = true -> slot w = None ->
  encode codec (PageVisitData.make name url (clock w)) = Ok s ->
  restartPageVisitTimer E name url w = (Ok JNull, written s w, [])
  /\ trackPreviousPageVisit E name url w = (Ok tt, written s w, [])
  /\ slot (worldOf (trackPreviousPageVisit E name url w)) = Some s.
Proof.
  intros Hs Hj Hslot Henc.
  pose proof (restart_idle name url s w Hs Hj Hslot Henc) as Hrestart.
  assert (Htrack : trackPreviousPageVisit E name url w = (Ok tt, written s w, [])).
  { unfold trackPreviousPageVisit, trackPreviousPageVisit_try, try_catch, bind.
    rewrite Hrestart. reflexivity. }
  split; [ exact Hrestart | ]. split; [ exact Htrack | ].
  rewrite Htrack. apply slot_written.
Qed.

(** X2. On a session that is timing a page, when the reporting handler
    returns normally, [trackPreviousPageVisit(name, url)] emits exactly
    one report, for the previous page with the time since its start, and
    no warning; the slot then holds the new page, and a [stop] after [dt]
    more returns the new page with [pageVisitTime = dt]. *)
Theorem track_reports_then_times_new_page name url name0 url0 t0 s dt w :
  recordsRoundTrip codec ->
  storageUsable w = true -> jsonPresent w = true ->
  slot w = Some s -> encode codec (PageVisitData.make name0 url0 t0) = Ok s ->
  (forall w', handler (JStr name0) (JStr url0) (JNum (clock w - t0)) w' = Ok tt) ->
  traceOf (trackPreviousPageVisit E name url w)
  = [Reported (JStr name0) (JStr url0) (JNum (clock w - t0))]
  /\ resultOf (trackPreviousPageVisit E name url w) = Ok tt
  /\ resultOf (stopPageVisitTimer E
                 (elapse dt (worldOf (trackPreviousPageVisit E name url w))))
     = Ok (JObj [("pageVisitStartTime", JNum (clock w));
                 ("pageName", JStr name);
                 ("pageUrl", JStr url);
                 ("pageVisitTime", JNum dt)]).
Proof.
  intros Hrt Hs Hj Hslot Henc Hquiet.
  destruct (Hrt name url (clock w)) as (s' & Henc' & _).
  pose proof (restart_timing name url name0 url0 t0 s s' w Hrt Hs Hj Hslot Henc Henc')
    as Hrestart.
  assert (Htrack : trackPreviousPageVisit E name url w
                   = (Ok tt, written s' (cleared w),
                      [Reported (JStr name0) (JStr url0) (JNum (clock w - t0))])).
  { unfold trackPreviousPageVisit, trackPreviousPageVisit_try, try_catch, bind.
    rewrite Hrestart. unfold finalized, lift, invokeHandler, call_traced; simpl.
    rewrite Hquiet. reflexivity. }
  rewrite Htrack. cbn [traceOf resultOf worldOf fst snd].
  split; [ reflexivity | ]. split; [ reflexivity | ].
  rewrite (stop_started codec coerce dump handler name url (clock w) s'
             (elapse dt (written s' (cleared w))) Hrt Hs Hj
             (slot_written s' (cleared w)) Henc').
  cbn [resultOf fst]. unfold finalized. repeat f_equal. simpl. lia.
Qed.

(** X6. A second [start] while a page is being timed neither replaces
    the page nor restarts its clock: [start(p1)] on an idle session, [d1]
    later a [start(p2)], [d2] later a [stop], and [stop] returns the first
    page with [pageVisitTime = d1 + d2]; the second [start] logs the one
    warning of its [catch] block. *)
Theorem second_start_does_not_reset name1 url1 name2 url2 d1 d2 w0 :
  recordsRoundTrip codec ->
  storageUsable w0 = true -> jsonPresent w0 = true -> slot w0 = None ->
  let w1 := elapse d1 (worldOf (startPageVisitTimer E name1 url1 w0)) in
  let w2 := elapse d2 (worldOf (startPageVisitTimer E name2 url2 w1)) in
  traceOf (startPageVisitTimer E name2 url2 w1)
  = [Warned ("Call to start failed: " ++ dump (ErrorObj consecutiveStartMessage))]
  /\ resultOf (stopPageVisitTimer E w2)
     = Ok (JObj [("pageVisitStartTime", JNum (clock w0));
                 ("pageName", JStr name1);
                 ("pageUrl", JStr url1);
                 ("pageVisitTime", JNum (d1 + d2))])
  /\ slot (worldOf (stopPageVisitTimer E w2)) = None.
Proof.
  intros Hrt Hs Hj Hslot. cbv zeta.
  destruct (Hrt name1 url1 (clock w0)) as (s & Henc & _).
  rewrite (start_idle codec coerce dump handler name1 url1 w0 s Hs Hj Hslot Henc).
  cbn [worldOf fst snd].
  rewrite (start_busy codec coerce dump handler name2 url2
             (elapse d1 (written s w0)) s Hs Hj (slot_written s w0)).
  cbn [traceOf worldOf fst snd]. split; [ reflexivity | ].
  rewrite (stop_started codec coerce dump handler name1 url1 (clock w0) s
             (elapse d2 (elapse d1 (written s w0))) Hrt Hs Hj
             (slot_written s w0) Henc).
  cbn [resultOf worldOf fst snd]. split; [ | apply slot_cleared ].
  unfold finalized. repeat f_equal. simpl. lia.
Qed.

(** X8. The stored record is not validated: when the slot holds the text
    of an object without [pageVisitStartTime], [stop] still finalizes it,
    with [pageVisitTime = NaN], and clears the slot; and
    [trackPreviousPageVisit] hands that object's [pageName] and [pageUrl]
    (whatever they are) and [NaN] to the reporting handler. *)
Theorem missing_start_time_gives_nan name url s props w :
  storageUsable w = true -> jsonPresent w = true ->
  slot w = Some s -> string_truthy s = true ->
  decode codec s = Ok (JObj props) ->
  lookup_prop props "pageVisitStartTime" = JUndefined ->
  stopPageVisitTimer E w
  = (Ok (JObj (assign_prop props "pageVisitTime" JNaN)), cleared w, [])
  /\ reports (traceOf (trackPreviousPageVisit E name url w))
     = [(lookup_prop props "pageName", lookup_prop props "pageUrl", JNaN)].
Proof.
  intros Hs Hj Hslot Htruthy Hdec Hmissing.
  assert (Hstop : stopPageVisitTimer E w
                  = (Ok (JObj (assign_prop props "pageVisitTime" JNaN)), cleared w, [])).
  { unfold slot in Hslot. apply try_catch_ok. unfold_manager. simpl.
    rewrite Hs, Hslot, Htruthy. simpl. rewrite Hj. simpl. rewrite Hj. simpl.
    rewrite Hdec. simpl. rewrite Hmissing. reflexivity. }
  split; [ exact Hstop | ].
  rewrite track_reports, (restart_result codec coerce dump handler name url w Hj), Hstop.
  cbn [resultOf fst reportsFor].
  rewrite lookup_assign_same.
  rewrite !lookup_assign_other by discriminate. reflexivity.
Qed.








Lemma reportsFrom_dwell n u d rest :
  reportsFrom n u d rest = dwellReports ((n, u, d) :: rest).
Proof.
  revert n u d. induction rest as [|[[n' u'] d'] rest IH]; intros n u d.
  - reflexivity.
  - simpl reportsFrom. rewrite IH. reflexivity.
Qed.

Lemma track_timing_step n u n0 u0 t0 s w :
  recordsRoundTrip codec ->
  storageUsable w = true -> jsonPresent w = true ->
  slot w = Some s -> encode codec (PageVisitData.make n0 u0 t0) = Ok s ->
  exists s',
    encode codec (PageVisitData.make n u (clock w)) = Ok s'
    /\ worldOf (trackPreviousPageVisit E n u w) = written s' (cleared w)
    /\ reports (traceOf (trackPreviousPageVisit E n u w))
       = [(JStr n0, JStr u0, JNum (clock w - t0))].
Proof.
  intros Hrt Hs Hj Hslot Henc.
  destruct (Hrt n u (clock w)) as (s' & Henc' & _).
  pose proof (restart_timing n u n0 u0 t0 s s' w Hrt Hs Hj Hslot Henc Henc') as Hrestart.
  exists s'. split; [ exact Henc' | ]. split.
  - rewrite track_world, Hrestart. reflexivity.
  - rewrite track_reports, Hrestart. reflexivity.
Qed.

Lemma navigate_timing pages :
  forall w s n0 u0 t0 elapsed,
    recordsRoundTrip codec ->
    storageUsable w = true -> jsonPresent w = true ->
    slot w = Some s -> encode codec (PageVisitData.make n0 u0 t0) = Ok s ->
    elapsed = clock w - t0 ->
    reports (emittedAll codec coerce dump handler (navigate pages) w)
    = reportsFrom n0 u0 elapsed pages
    /\ exists t s',
         slot (performAll codec coerce dump handler (navigate pages) w) = Some s'
         /\ encode codec (PageVisitData.make (fst (lastPage n0 u0 pages))
                            (snd (lastPage n0 u0 pages)) t) = Ok s'.
Proof.
  induction pages as [|[[n u] d] rest IH]; intros w s n0 u0 t0 elapsed Hrt Hs Hj Hslot Henc ->.
  - split; [ reflexivity | ]. exists t0, s. split; assumption.
  - destruct (track_timing_step n u n0 u0 t0 s w Hrt Hs Hj Hslot Henc)
      as (s' & Henc' & Hworld & Hrep).
    change (navigate ((n, u, d) :: rest)) with (Track n u :: Elapse d :: navigate rest).
    cbn [emittedAll performAll fold_left emitted perform].
    rewrite Hworld. rewrite reports_app, Hrep. cbn [app fst snd].
    destruct (IH (elapse d (written s' (cleared w))) s' n u (clock w) d Hrt Hs Hj
                (slot_written s' (cleared w)) Henc')
      as [Hreps Hlast].
    { simpl. lia. }
    split.
    + rewrite Hreps. reflexivity.
    + exact Hlast.
Qed.

(** X3. A navigation through pages, [trackPreviousPageVisit] on entering
    each and some time spent on it, starting on an idle session with
    storage and JSON available: the reporting handler is called once for
    every page but the last, in order, with that page's name, url and the
    time spent on it, whatever the handler does; afterwards the slot
    holds the record of the last page. *)
Theorem navigation_reports_each_page_once pages w :
  recordsRoundTrip codec ->
  storageUsable w = true -> jsonPresent w = true -> slot w = None ->
  reports (emittedAll codec coerce dump handler (navigate pages) w) = dwellReports pages
  /\ match pages with
     | [] => slot (performAll codec coerce dump handler (navigate pages) w) = None
     | (n, u, _) :: rest =>
         exists t s,
           slot (performAll codec coerce dump handler (navigate pages) w) = Some s
           /\ encode codec (PageVisitData.make (fst (lastPage n u rest))
                              (snd (lastPage n u rest)) t) = Ok s
     end.
Proof.
  intros Hrt Hs Hj Hslot. destruct pages as [|[[n u] d] rest].
  - split; [ reflexivity | exact Hslot ].
  - destruct (Hrt n u (clock w)) as (s & Henc & _).
    pose proof (restart_idle n u s w Hs Hj Hslot Henc) as Hrestart.
    change (navigate ((n, u, d) :: rest)) with (Track n u :: Elapse d :: navigate rest).
    cbn [emittedAll performAll fold_left emitted perform].
    rewrite reports_app, track_reports, track_world, Hrestart.
    cbn [resultOf worldOf reportsFor fst snd app].
    destruct (navigate_timing rest (elapse d (written s w)) s n u (clock w) d Hrt Hs Hj
                (slot_written s w) Henc)
      as [Hreps Hlast].
    { simpl. lia. }
    split.
    + rewrite Hreps. apply reportsFrom_dwell.
    + exact Hlast.
Qed.

End SessionExtras.

Lemma first_page_is_timed_not_reported_witness :
  trackPreviousPageVisit demoEnv "p1" "u1" idleWorld
  = (Ok tt, written timingText idleWorld, [])
  /\ restartPageVisitTimer demoEnv "p1" "u1" idleWorld
     = (Ok JNull, written timingText idleWorld, []).
Proof.
  destruct (first_page_is_timed_not_reported MiniJSON.codec noCoercion describe
              quietHandler "p1" "u1" timingText idleWorld
              ltac:(vm_compute; reflexivity) ltac:(vm_compute; reflexivity)
              ltac:(vm_compute; reflexivity) ltac:(vm_compute; reflexivity))
    as (Hrestart & Htrack & _).
  split; [ exact Htrack | exact Hrestart ].
Defined.

Lemma track_reports_then_times_new_page_witness :
  traceOf (trackPreviousPageVisit demoEnv "p2" "u2" timingWorld)
  = [Reported (JStr "p1") (JStr "u1") (JNum (1005 - 1000))]
  /\ resultOf (stopPageVisitTimer demoEnv
                 (elapse 7 (worldOf (trackPreviousPageVisit demoEnv "p2" "u2" timingWorld))))
     = Ok (JObj [("pageVisitStartTime", JNum 1005);
                 ("pageName", JStr "p2");
                 ("pageUrl", JStr "u2");
                 ("pageVisitTime", JNum 7)]).
Proof.
  destruct (track_reports_then_times_new_page MiniJSON.codec noCoercion describe
              quietHandler "p2" "u2" "p1" "u1" 1000 timingText 7 timingWorld
              miniJSON_roundTrip
              ltac:(vm_compute; reflexivity) ltac:(vm_compute; reflexivity)
              ltac:(vm_compute; reflexivity) ltac:(vm_compute; reflexivity)
              ltac:(intros w'; reflexivity))
    as (Htrace & _ & Hstop).
  split; [ exact Htrace | exact Hstop ].
Defined.

Lemma navigation_reports_each_page_once_witness :
  reports (emittedAll MiniJSON.codec noCoercion describe failingHandler
             (navigate demoPages) idleWorld)
  = [(JStr "p1", JStr "u1", JNum 5); (JStr "p2", JStr "u2", JNum 7)].
Proof.
  apply (navigation_reports_each_page_once MiniJSON.codec noCoercion describe
           failingHandler demoPages idleWorld miniJSON_roundTrip);
    vm_compute; reflexivity.
Defined.

Lemma unreadable_slot_is_permanent_witness :
  slot (performAll MiniJSON.codec noCoercion describe quietHandler demoActions
          poisonedWorld) = Some "null"
  /\ reports (emittedAll MiniJSON.codec noCoercion describe quietHandler demoActions
                poisonedWorld) = [].
Proof.
  apply (unreadable_slot_is_permanent MiniJSON.codec noCoercion describe quietHandler
           demoActions poisonedWorld "null").
  - vm_compute. reflexivity.
  - right. right. exists JNull. split; reflexivity.
Defined.

Lemma without_json_nothing_happens_witness :
  sessionStorage (performAll MiniJSON.codec noCoercion describe quietHandler demoActions
                    noJsonWorld) = sessionStorage noJsonWorld
  /\ reports (emittedAll MiniJSON.codec noCoercion describe quietHandler demoActions
                noJsonWorld) = [].
Proof.
  apply (without_json_nothing_happens MiniJSON.codec noCoercion describe quietHandler
           demoActions noJsonWorld); reflexivity.
Defined.

Lemma second_start_does_not_reset_witness :
  resultOf (stopPageVisitTimer demoEnv
              (elapse 7 (worldOf (startPageVisitTimer demoEnv "p2" "u2" timingWorld))))
  = Ok (JObj [("pageVisitStartTime", JNum 1000);
              ("pageName", JStr "p1");
              ("pageUrl", JStr "u1");
              ("pageVisitTime", JNum (5 + 7))]).
Proof.
  apply (second_start_does_not_reset MiniJSON.codec noCoercion describe quietHandler
           "p1" "u1" "p2" "u2" 5 7 idleWorld miniJSON_roundTrip);
    vm_compute; reflexivity.
Defined.


Lemma missing_start_time_gives_nan_witness :
  stopPageVisitTimer demoEnv emptyObjectWorld
  = (Ok (JObj [("pageVisitTime", JNaN)]), cleared emptyObjectWorld, [])
  /\ reports (traceOf (trackPreviousPageVisit demoEnv "p2" "u2" emptyObjectWorld))
     = [(JUndefined, JUndefined, JNaN)].
Proof.
  apply (missing_start_time_gives_nan MiniJSON.codec noCoercion describe quietHandler
           "p2" "u2" "{}" [] emptyObjectWorld); vm_compute; reflexivity.
Defined.

(** X10. Whatever the storage, the JSON facility and the coercions do,
    what [stopPageVisitTimer] and [restartPageVisitTimer] return is
    [null] or an object whose [pageVisitTime] is a number (possibly
    [NaN]): never a primitive, never an object without a duration. *)
Theorem answers_are_null_or_finalized
  {W : Type} (env : Env W) (name url : string) (w : W) (v : JsVal) :
  (resultOf (stopPageVisitTimer env w) = Ok v -> nullOrFinalized v)
  /\ (resultOf (restartPageVisitTimer env name url w) = Ok v -> nullOrFinalized v).
Proof.
  split.
  - apply stop_yields.
  - apply restart_yields.
Qed.

Lemma answers_are_null_or_finalized_witness :
  nullOrFinalized (finalized "p1" "u1" 1000 1005).
Proof.
  apply (answers_are_null_or_finalized demoEnv "p2" "u2" timingWorld
           (finalized "p1" "u1" 1000 1005)).
  vm_compute. reflexivity.
Defined.

Section SessionOutcomes.
Variable codec : Codec.
Variable coerce : JsVal -> Res JsVal.
Variable dump : Exn -> string.
Variable handler : JsVal -> JsVal -> JsVal -> World -> Res unit.

Local Notation "'E'" := (sessionEnv codec coerce dump handler).

(** X11. On a session [stop] is all or nothing: either it answers [null]
    and the session is exactly as before (the slot included), or it
    answers an object, has logged nothing, and the only change is that
    the slot, which was occupied, is cleared. *)
Theorem stop_is_all_or_nothing w :
  (resultOf (stopPageVisitTimer E w) = Ok JNull
   /\ worldOf (stopPageVisitTimer E w) = w)
  \/ (exists props,
        stopPageVisitTimer E w = (Ok (JObj props), cleared w, [])
        /\ slot w <> None).
Proof.
  destruct (stop_cases codec coerce dump handler w)
    as [[Hw Hnull] | (s & props0 & props & Hslot & _ & _ & _ & _ & Hstop)].
  - left. split; assumption.
  - right. exists props. split; [ exact Hstop | ]. rewrite Hslot. discriminate.
Qed.

(** X12. On a session [start(name, url)] writes exactly when storage is
    usable, the slot is empty, JSON is present and the record serializes:
    then the slot holds the text of the fresh record and nothing is
    logged.  In every other case the session is exactly as before:
    [start] returns with nothing logged when storage is unusable; with
    JSON present it returns with one warning when the slot is occupied or
    the record does not serialize; without JSON (storage usable) it
    raises, [dumpObj] failing in its [catch] block, and logs nothing. *)
Theorem start_writes_or_changes_nothing name url w :
  (exists s,
      storageUsable w = true /\ slot w = None /\ jsonPresent w = true
      /\ encode codec (PageVisitData.make name url (clock w)) = Ok s
      /\ startPageVisitTimer E name url w = (Ok tt, written s w, []))
  \/ (storageUsable w = false
      /\ startPageVisitTimer E name url w = (Ok tt, w, []))
  \/ (storageUsable w = true /\ jsonPresent w = true
      /\ (slot w <> None
          \/ exists e, encode codec (PageVisitData.make name url (clock w)) = Throw e)
      /\ exists e,
           startPageVisitTimer E name url w
           = (Ok tt, w, [Warned ("Call to start failed: " ++ dump e)]))
  \/ (storageUsable w = true /\ jsonPresent w = false
      /\ startPageVisitTimer E name url w = (Throw RangeErrorObj, w, [])).
Proof.
  unfold startPageVisitTimer.
  destruct (start_try_cases codec coerce dump handler name url w)
    as [(s & Hs & Hslot & Hj & Henc & H) | [[Hs H] | (Hs & Hwhy & e & H)]].
  - left. exists s. rewrite (try_catch_ok _ _ _ _ _ _ H). repeat split; assumption.
  - right. left. rewrite (try_catch_ok _ _ _ _ _ _ H). split; [ exact Hs | reflexivity ].
  - rewrite (try_catch_throw _ _ _ _ _ _ H), session_logFailure.
    destruct (jsonPresent w) eqn:Hj.
    + right. right. left. split; [ exact Hs | ]. split; [ reflexivity | ]. split.
      * destruct Hwhy as [Hocc | [Hno | Henc]];
          [ left; exact Hocc | discriminate Hno | right; exact Henc ].
      * exists e. reflexivity.
    + right. right. right. split; [ exact Hs | ]. split; reflexivity.
Qed.

End SessionOutcomes.
